(** * Differentiable mutables and the zero-cost evaluator of spos-cifar

    A shallow embedding of
      - [pplib/nas/mutables/diff_mutable.py]
        ([DiffMutable], [DiffOP], [DynaDiffOP], [DiffChoiceRoute]) and
      - [nanonas/evaluator/zc_evaluator.py]
        ([ZeroCostPredictorEvaluator.single_evaluate]),
    followed by the properties of the specification that concern them.

    Conventions of the embedding.
      - A Python call that may raise returns a [result]; a method that
        mutates [self] returns the new object next to its outcome, so that
        what an exception leaves behind is visible.
      - An [nn.ModuleDict] is an insertion-ordered dictionary: an
        association list, whose order is the order of [keys()] and
        [values()].
      - Tensors are kept abstract ([TensorOps]): addition, multiplication by
        a probability, and the integer [0] that Python's [sum] starts from.
        Probabilities and thresholds are exact rationals. *)

From Stdlib Require Import List String Ascii Bool Arith ZArith QArith Qcanon Lia.
Import ListNotations.

Local Open Scope string_scope.
Local Open Scope list_scope.
Local Open Scope Q_scope.

(** ** Python outcomes *)

Inductive pyerr : Type :=
| AttributeError
| KeyError
| AssertionError
| TypeError
| IndexError
| ValueError
| RuntimeError.

Inductive result (A : Type) : Type :=
| Ok (a : A)
| Raise (e : pyerr).

Arguments Ok {A} a.
Arguments Raise {A} e.

Definition bind {A B : Type} (r : result A) (k : A -> result B) : result B :=
  match r with
  | Ok a => k a
  | Raise e => Raise e
  end.

Notation "x <- r ;; k" := (bind r (fun x => k))
  (at level 61, r at next level, right associativity).

(** Left-to-right evaluation of a comprehension whose body may raise: the
    first failure aborts the whole. *)
Fixpoint mapM {A B : Type} (f : A -> result B) (l : list A) : result (list B) :=
  match l with
  | [] => Ok []
  | a :: l' => b <- f a ;; bs <- mapM f l' ;; Ok (b :: bs)
  end.

Definition is_ok {A : Type} (r : result A) : bool :=
  match r with Ok _ => true | Raise _ => false end.

(** An instance attribute that [__init__] may leave unset, set to [None],
    or bind to a value. *)
Inductive attr (A : Type) : Type :=
| Absent
| IsNone
| Bound (a : A).

Arguments Absent {A}.
Arguments IsNone {A}.
Arguments Bound {A} a.

(** No value has been bound to the attribute yet. *)
Definition unset {A : Type} (a : attr A) : bool :=
  match a with
  | Bound _ => false
  | _ => true
  end.

(** Modelled from the spec: [BaseMutable.__init__] (base_mutable.py) is not
    among the sources, so what [_chosen] holds before any fix is taken from
    the data model ("chosen: one or more choice names, set at most once"):
    nothing has been chosen yet, the attribute is either missing or [None]. *)
Inductive base_init : Type :=
| ChosenMissing
| ChosenNone.

Definition initial_chosen {A : Type} (b : base_init) : attr A :=
  match b with
  | ChosenMissing => Absent
  | ChosenNone => IsNone
  end.

(** ** Tensors *)

Class TensorOps (T : Type) : Type := {
  tadd : T -> T -> T;       (* [a + b] *)
  tscale : Q -> T -> T;     (* [prob * tensor] *)
  tzero : T                 (* the [0] that [sum] starts from *)
}.

(** Python's builtin [sum(iterable)]: [((0 + o1) + o2) + ...]. *)
Definition py_sum {T : Type} `{TensorOps T} (outputs : list T) : T :=
  fold_left tadd outputs tzero.

(** [prob > 0.0] *)
Definition prob_pos (p : Q) : bool := negb (Qle_bool p 0).

(** ** [nn.ModuleDict] *)

Section ModuleDict.
Context {T : Type}.

Definition ModuleDict : Type := list (string * (T -> T)).

Definition keys (d : ModuleDict) : list string := map fst d.
Definition values (d : ModuleDict) : list (T -> T) := map snd d.

(** [d[key]] *)
Definition getitem (d : ModuleDict) (key : string) : result (T -> T) :=
  match find (fun kv => String.eqb (fst kv) key) d with
  | Some kv => Ok (snd kv)
  | None => Raise KeyError
  end.

(** [d.pop(key)], for a key of the dictionary. *)
Definition pop (d : ModuleDict) (key : string) : ModuleDict :=
  filter (fun kv => negb (String.eqb (fst kv) key)) d.

(** [for c in ks: if drop(c): d.pop(c)], the pruning loop of both
    [fix_chosen] methods. *)
Definition prune_with (drop : string -> bool) (ks : list string)
    (d : ModuleDict) : ModuleDict :=
  fold_left (fun d' c => if drop c then pop d' c else d') ks d.

End ModuleDict.

Arguments ModuleDict T : clear implicits.

(** Iterating a Python [str] yields its characters as one-letter strings. *)
Definition chars (s : string) : list string :=
  map (fun a => String a EmptyString) (list_ascii_of_string s).

(** The [chosen] argument of [DiffOP.fix_chosen]: [Union[List[str], str]]. *)
Inductive pychosen : Type :=
| ChosenStr (s : string)
| ChosenList (l : list string).

(** [for choice in chosen] *)
Definition iter_chosen (c : pychosen) : list string :=
  match c with
  | ChosenStr s => chars s
  | ChosenList l => l
  end.

(** [c != chosen] for a key [c]: a [str] never equals a [list]. *)
Definition str_ne (c : string) (chosen : pychosen) : bool :=
  match chosen with
  | ChosenStr s => negb (String.eqb c s)
  | ChosenList _ => true
  end.

(** [chosen[0]] *)
Definition chosen_head (c : pychosen) : result string :=
  match iter_chosen c with
  | [] => Raise IndexError
  | s :: _ => Ok s
  end.

(** [choices.index(s)] *)
Fixpoint list_index (s : string) (l : list string) : result nat :=
  match l with
  | [] => Raise ValueError
  | c :: l' => if String.eqb c s then Ok 0%nat
               else i <- list_index s l' ;; Ok (S i)
  end.

(** [s in l] for a list of strings. *)
Definition str_in (s : string) (l : list string) : bool :=
  existsb (String.eqb s) l.

(** ** [DiffMutable.compute_arch_probs]

    [F.softmax] (and [F.gumbel_softmax] in [GumbelChoiceRoute]) belong to
    torch; the normaliser is a parameter of the development.  Handing it
    [None] fails inside torch before any probability exists:
    [F.softmax(None)] raises [AttributeError] ([F.gumbel_softmax(None)]
    raises as well, with another exception type). *)
Definition compute_arch_probs (normalize : list Q -> list Q)
    (arch_param : option (list Q)) : result (list Q) :=
  match arch_param with
  | None => Raise AttributeError
  | Some a => Ok (normalize a)
  end.

(** ** The loops over candidates

    A site is one iteration of a loop over the candidates: the named module
    and the input it is given.  Each [module(input)] executed is an
    application; the model keeps the list of them next to the outputs. *)
Section Loops.
Context {T : Type} `{TensorOps T}.

Definition site : Type := (string * (T -> T)) * T.

Definition site_name (s : site) : string := fst (fst s).
Definition site_input (s : site) : T := snd s.
Definition site_output (s : site) : T := snd (fst s) (snd s).

(** [zip(d.values(), xs)], keeping the keys for reference. *)
Definition zip_sites (d : ModuleDict T) (xs : list T) : list site :=
  combine d xs.

(** [zip(d.values(), ...)] when every module receives the same [x]. *)
Definition same_input_sites (d : ModuleDict T) (x : T) : list site :=
  map (fun kv => (kv, x)) d.

(** [for op, input in sites: outputs.append(op(input))] *)
Definition all_outputs (sites : list site) : list T :=
  map site_output sites.

(** [for prob, module, input in zip(probs, ...)]: the iterations whose
    guard [prob > 0] holds, i.e. those that call their module. *)
Definition mixture_sites (probs : list Q) (sites : list site)
  : list (Q * site) :=
  filter (fun ps => prob_pos (fst ps)) (combine probs sites).

(** [outputs.append(prob * module(input))] on those iterations. *)
Definition mixture_outputs (probs : list Q) (sites : list site) : list T :=
  map (fun ps => tscale (fst ps) (site_output (snd ps)))
      (mixture_sites probs sites).


(** The [(edge, input)] pairs on which a module is really called. *)
Definition applications_of (sel : list site) : list (string * T) :=
  map (fun s => (site_name s, site_input s)) sel.

End Loops.

Arguments site T : clear implicits.

(** ** [DiffOP] *)

Module DiffOP.
Section WithTensor.
Context {T : Type} `{TensorOps T}.
Variable normalize : list Q -> list Q.

Record t : Type := mk {
  _is_fixed : bool;
  _candidate_ops : ModuleDict T;
  _chosen : attr pychosen
}.

(** [__init__]: asserts a non-empty candidate set. *)
Definition init (b : base_init) (candidate_ops : ModuleDict T) : result t :=
  if (1 <=? List.length candidate_ops)%nat
  then Ok (mk false candidate_ops (initial_chosen b))
  else Raise AssertionError.

(** Modelled from the spec: the [is_fixed] property of [BaseMutable]
    (base_mutable.py, not among the sources) is the boolean state of the
    mutable; it is read from and written to [_is_fixed]. *)
Definition is_fixed (self : t) : bool := _is_fixed self.

Definition set_is_fixed (self : t) (b : bool) : t :=
  mk b (_candidate_ops self) (_chosen self).

Definition choices (self : t) : list string := keys (_candidate_ops self).

(** [sum(self._candidate_ops[choice](x) for choice in self._chosen)] *)
Definition forward_fixed (self : t) (x : T) : result T :=
  match _chosen self with
  | Absent => Raise AttributeError
  | IsNone => Raise TypeError
  | Bound chosen =>
      outs <- mapM (fun choice =>
                      m <- getitem (_candidate_ops self) choice ;; Ok (m x))
                   (iter_chosen chosen) ;;
      Ok (py_sum outs)
  end.

Definition forward_all (self : t) (x : T) : result T :=
  Ok (py_sum (all_outputs (same_input_sites (_candidate_ops self) x))).

Definition forward_arch_param (self : t) (x : T)
    (arch_param : option (list Q)) : result T :=
  match arch_param with
  | None => forward_all self x
  | Some _ =>
      probs <- compute_arch_probs normalize arch_param ;;
      Ok (py_sum (mixture_outputs probs
                    (same_input_sites (_candidate_ops self) x)))
  end.

(** [DiffMutable.forward] *)
Definition forward (self : t) (x : T) (arch_param : option (list Q))
  : result T :=
  if is_fixed self then forward_fixed self x
  else forward_arch_param self x arch_param.

(** [for c in self.choices: if c != chosen: self._candidate_ops.pop(c)] *)
Definition prune (d : ModuleDict T) (chosen : pychosen) : ModuleDict T :=
  prune_with (fun c => str_ne c chosen) (keys d) d.

Definition fix_chosen (self : t) (chosen : pychosen) : t * result unit :=
  if is_fixed self then (self, Raise AttributeError)
  else
    let self1 := mk (_is_fixed self)
                    (prune (_candidate_ops self) chosen)
                    (Bound chosen) in
    (set_is_fixed self1 true, Ok tt).

(** [torch.argmax]: the position of the largest entry (the first one
    among equals); on an empty tensor it raises [IndexError]. *)
Fixpoint argmax_from (best : Q) (besti i : nat) (l : list Q) : nat :=
  match l with
  | [] => besti
  | p :: l' => if Qle_bool p best then argmax_from best besti (S i) l'
               else argmax_from p i (S i) l'
  end.

Definition argmax (l : list Q) : result nat :=
  match l with
  | [] => Raise IndexError
  | p :: l' => Ok (argmax_from p 0%nat 1%nat l')
  end.

(** [self.choices[torch.argmax(softmax(arch_param)).item()]] *)
Definition sample_choice (self : t) (arch_param : list Q) : result string :=
  i <- argmax (normalize arch_param) ;;
  match nth_error (choices self) i with
  | Some c => Ok c
  | None => Raise IndexError
  end.

End WithTensor.
End DiffOP.

(** ** [DynaDiffOP] *)

(** [torch.topk(probs, 2)[0]]: the two largest entries, largest first.  It
    raises when there are fewer than two entries. *)
Definition topk2_step (top : Q * Q) (p : Q) : Q * Q :=
  if Qle_bool (fst top) p then (p, fst top)
  else if Qle_bool (snd top) p then (fst top, p)
  else top.

Definition topk2 (probs : list Q) : result (Q * Q) :=
  match probs with
  | p0 :: p1 :: rest =>
      Ok (fold_left topk2_step rest
            (if Qle_bool p1 p0 then (p0, p1) else (p1, p0)))
  | _ => Raise RuntimeError
  end.

(** A boolean (a one-element boolean tensor, through [__index__]) used as
    a list index: [l[False]] is [l[0]], [l[True]] is [l[1]]. *)
Definition bool_index (b : bool) : nat := if b then 1%nat else 0%nat.

(** [probs.data.zero_(); probs.data[index].fill_(1.0)] *)
Definition one_hot (n index : nat) : result (list Q) :=
  if (index <? n)%nat
  then Ok (map (fun j => if (j =? index)%nat then 1%Q else 0%Q) (seq 0 n))
  else Raise IndexError.

Module DynaDiffOP.
Section WithTensor.
Context {T : Type} `{TensorOps T}.
Variable normalize : list Q -> list Q.

Record t : Type := mk {
  base : DiffOP.t (T := T);
  dyna_thresh : Q
}.

Definition init (b : base_init) (candidate_ops : ModuleDict T)
    (thresh : Q) : result t :=
  super <- DiffOP.init b candidate_ops ;;
  if (1 <=? List.length candidate_ops)%nat
  then Ok (mk super thresh)
  else Raise AssertionError.

Definition is_fixed (self : t) : bool := DiffOP.is_fixed (base self).
Definition choices (self : t) : list string := DiffOP.choices (base self).
Definition _chosen (self : t) : attr pychosen := DiffOP._chosen (base self).
Definition _candidate_ops (self : t) : ModuleDict T :=
  DiffOP._candidate_ops (base self).

(** Inherited from [DiffOP]. *)
Definition forward_fixed (self : t) (x : T) : result T :=
  DiffOP.forward_fixed (base self) x.

Definition forward_all (self : t) (x : T) : result T :=
  DiffOP.forward_all (base self) x.

Definition fix_chosen (self : t) (chosen : pychosen) : t * result unit :=
  let (b, r) := DiffOP.fix_chosen (base self) chosen in
  (mk b (dyna_thresh self), r).

(** The tail of [forward_arch_param]: "forward based on probs", on the
    candidate operations as they are at that point. *)
Definition mixture (self : t) (probs : list Q) (x : T) : T :=
  py_sum (mixture_outputs probs (same_input_sites (_candidate_ops self) x)).

Definition forward_arch_param (self : t) (x : T)
    (arch_param : option (list Q)) : t * result T :=
  match arch_param with
  | None => (self, forward_all self x)
  | Some _ =>
      match compute_arch_probs normalize arch_param with
      | Raise e => (self, Raise e)
      | Ok probs =>
          if negb (is_fixed self) then
            (* if not fixed, judge whether to fix *)
            match topk2 probs with
            | Raise e => (self, Raise e)
            | Ok sorted_param =>
                let index :=
                  Qle_bool (dyna_thresh self)
                           (fst sorted_param - snd sorted_param) in
                if index then
                  match nth_error (choices self) (bool_index index) with
                  | None => (self, Raise IndexError)
                  | Some c =>
                      match fix_chosen self (ChosenStr c) with
                      | (self', Raise e) => (self', Raise e)
                      | (self', Ok _) => (self', Ok (mixture self' probs x))
                      end
                  end
                else (self, Ok (mixture self probs x))
            end
          else
            (* if fixed, query the fix operation *)
            (self,
             first <- match _chosen self with
                      | Absent => Raise AttributeError
                      | IsNone => Raise TypeError
                      | Bound c => chosen_head c
                      end ;;
             index <- list_index first (choices self) ;;
             probs' <- one_hot (List.length probs) index ;;
             Ok (mixture self probs' x))
      end
  end.

(** [DiffMutable.forward] *)
Definition forward (self : t) (x : T) (arch_param : option (list Q))
  : t * result T :=
  if is_fixed self then (self, forward_fixed self x)
  else forward_arch_param self x arch_param.

Definition sample_choice (self : t) (arch_param : list Q) : result string :=
  DiffOP.sample_choice normalize (base self) arch_param.

End WithTensor.
End DynaDiffOP.

(** ** [DiffChoiceRoute] (and [GumbelChoiceRoute], which only replaces the
    normaliser) *)

Module DiffChoiceRoute.
Section WithTensor.
Context {T : Type} `{TensorOps T}.
Variable normalize : list Q -> list Q.

Record t : Type := mk {
  _is_fixed : bool;
  _with_arch_param : bool;
  _edges : ModuleDict T;
  _chosen : attr (list string);
  _unfixed_choices : option (list string)
}.

Definition init (b : base_init) (edges : ModuleDict T)
    (with_arch_param : bool) : result t :=
  if (1 <=? List.length edges)%nat
  then Ok (mk false with_arch_param edges (initial_chosen b) None)
  else Raise AssertionError.

(** Modelled from the spec: [BaseMutable.is_fixed] (base_mutable.py, not
    among the sources), the boolean state of the mutable, kept in
    [_is_fixed]. *)
Definition is_fixed (self : t) : bool := _is_fixed self.

Definition choices (self : t) : list string := keys (_edges self).

Definition forward_fixed (self : t) (inputs : list T) : result T :=
  match _chosen self with
  | Absent => Raise AttributeError
  | IsNone => Raise AssertionError
  | Bound chosen =>
      match _unfixed_choices self with
      | None => Raise AttributeError
      | Some unfixed =>
          outs <- mapM (fun cx =>
                          m <- getitem (_edges self) (fst cx) ;;
                          Ok (m (snd cx)))
                       (filter (fun cx => str_in (fst cx) chosen)
                               (combine unfixed inputs)) ;;
          Ok (py_sum outs)
      end
  end.

(** [forward_all], with the module calls it makes. *)
Definition forward_all_traced (self : t) (x : list T)
  : result (list (string * T) * T) :=
  if (List.length x =? List.length (_edges self))%nat then
    let sites := zip_sites (_edges self) x in
    Ok (applications_of sites, py_sum (all_outputs sites))
  else Raise AssertionError.

Definition forward_all (self : t) (x : list T) : result T :=
  r <- forward_all_traced self x ;; Ok (snd r).

(** [forward_arch_param], with the module calls it makes. *)
Definition forward_arch_param_traced (self : t) (x : list T)
    (arch_param : option (list Q)) : result (list (string * T) * T) :=
  if (List.length x =? List.length (_edges self))%nat then
    if _with_arch_param self then
      probs <- compute_arch_probs normalize arch_param ;;
      let sites := zip_sites (_edges self) x in
      Ok (applications_of (map snd (mixture_sites probs sites)),
          py_sum (mixture_outputs probs sites))
    else forward_all_traced self x
  else Raise AssertionError.

Definition forward_arch_param (self : t) (x : list T)
    (arch_param : option (list Q)) : result T :=
  r <- forward_arch_param_traced self x arch_param ;; Ok (snd r).

(** [DiffMutable.forward] *)
Definition forward (self : t) (x : list T) (arch_param : option (list Q))
  : result T :=
  if is_fixed self then forward_fixed self x
  else forward_arch_param self x arch_param.

(** [for c in self.choices: if c not in chosen: self._edges.pop(c)] *)
Definition prune (d : ModuleDict T) (chosen : list string) : ModuleDict T :=
  prune_with (fun c => negb (str_in c chosen)) (keys d) d.

(** [_unfixed_choices] is assigned before the fixed test, so it is
    overwritten even by a call that raises. *)
Definition fix_chosen (self : t) (chosen : list string) : t * result unit :=
  let self0 := mk (_is_fixed self) (_with_arch_param self) (_edges self)
                  (_chosen self) (Some (choices self)) in
  if is_fixed self0 then (self0, Raise AttributeError)
  else
    (mk true (_with_arch_param self0) (prune (_edges self0) chosen)
        (Bound chosen) (_unfixed_choices self0),
     Ok tt).

End WithTensor.
End DiffChoiceRoute.

(** ** [ZeroCostPredictorEvaluator.single_evaluate] *)

Module ZeroCostPredictorEvaluator.

(** A Python [float]: finite values are exact rationals (kept in lowest
    terms), next to the two infinities and NaN. *)
Inductive pyfloat : Type :=
| Fin (q : Q)
| PInf
| NInf
| NaN.

(** What [zc_api[...]['score']] holds: one number, or a list of numbers
    (an ensemble). *)
Inductive score : Type :=
| Scalar (f : pyfloat)
| Scores (l : list pyfloat).

Definition is_infinite (f : pyfloat) : bool :=
  match f with
  | PInf | NInf => true
  | _ => false
  end.

(** [float('-inf') == pred] and [float('inf') == pred]; a list compares
    unequal to a float. *)
Definition eq_neg_inf (pred : score) : bool :=
  match pred with
  | Scalar NInf => true
  | _ => false
  end.

Definition eq_pos_inf (pred : score) : bool :=
  match pred with
  | Scalar PInf => true
  | _ => false
  end.

Definition big : Q := 1000000000 # 1.   (* 1e9 *)

Definition clamp (pred : score) : score :=
  if eq_neg_inf pred then Scalar (Fin (- big))
  else if eq_pos_inf pred then Scalar (Fin big)
  else pred.

(** The query loop:
    [for arch in xtest: pred = zc_api[str(arch)][method]['score']; ...;
     test_pred.append(pred)].
    [zc_api] is the benchmark table restricted to the predictor's method
    and its ['score'] entry. *)
Definition query (zc_api : string -> option score) (xtest : list string)
  : result (list score) :=
  mapM (fun arch =>
          match zc_api arch with
          | Some pred => Ok (clamp pred)
          | None => Raise KeyError
          end) xtest.

(** A NumPy array of one or two dimensions. [Arr2 rows k] has shape
    [(length rows, k)]. *)
Inductive ndarray : Type :=
| Arr1 (v : list pyfloat)
| Arr2 (rows : list (list pyfloat)) (ncols : nat).

Definition as_scalar (s : score) : option pyfloat :=
  match s with Scalar f => Some f | Scores _ => None end.

Definition as_row (k : nat) (s : score) : option (list pyfloat) :=
  match s with
  | Scores r => if (List.length r =? k)%nat then Some r else None
  | Scalar _ => None
  end.

Fixpoint all_some {A : Type} (l : list (option A)) : option (list A) :=
  match l with
  | [] => Some []
  | Some a :: l' => match all_some l' with
                    | Some r => Some (a :: r)
                    | None => None
                    end
  | None :: _ => None
  end.

(** [np.array(test_pred)]: numbers give one dimension, lists of one
    common length give two; a ragged nesting is refused. *)
Definition np_array (test_pred : list score) : result ndarray :=
  match test_pred with
  | [] => Ok (Arr1 [])
  | Scalar _ :: _ =>
      match all_some (map as_scalar test_pred) with
      | Some v => Ok (Arr1 v)
      | None => Raise ValueError
      end
  | Scores r :: _ =>
      match all_some (map (as_row (List.length r)) test_pred) with
      | Some rows => Ok (Arr2 rows (List.length r))
      | None => Raise ValueError
      end
  end.

Definition fadd (a b : pyfloat) : pyfloat :=
  match a, b with
  | NaN, _ | _, NaN => NaN
  | PInf, NInf | NInf, PInf => NaN
  | PInf, _ | _, PInf => PInf
  | NInf, _ | _, NInf => NInf
  | Fin x, Fin y => Fin (Qred (x + y))
  end.

(** Division by a positive count. *)
Definition fdiv_count (a : pyfloat) (n : nat) : pyfloat :=
  match a with
  | Fin x => Fin (Qred (x / inject_Z (Z.of_nat n)))
  | other => other
  end.

Definition fsum (l : list pyfloat) : pyfloat :=
  fold_left fadd l (Fin 0).

(** Entry [j] of every row. *)
Definition column (rows : list (list pyfloat)) (j : nat) : list pyfloat :=
  map (fun r => nth j r NaN) rows.

(** [np.mean(a, axis=0)] for a two-dimensional [a]: the mean along the
    first axis, one value per column. *)
Definition mean_axis0 (rows : list (list pyfloat)) (ncols : nat)
  : list pyfloat :=
  map (fun j => fdiv_count (fsum (column rows j)) (List.length rows))
      (seq 0 ncols).

(** [if len(test_pred.shape) > 1: test_pred = np.mean(test_pred, axis=0)] *)
Definition aggregate (a : ndarray) : list pyfloat :=
  match a with
  | Arr1 v => v
  | Arr2 rows k => mean_axis0 rows k
  end.

(** [single_evaluate] up to its call of the external
    [utils.compute_scores(ytest, test_pred)]: the two arguments of that
    call. *)
Definition single_evaluate {Y : Type} (zc_api : string -> option score)
    (xtest : list string) (ytest : list Y)
  : result (list Y * list pyfloat) :=
  test_pred <- query zc_api xtest ;;
  arr <- np_array test_pred ;;
  Ok (ytest, aggregate arr).

(** [clamp] on a score that is a number. *)
Definition clamp_float (f : pyfloat) : pyfloat :=
  match f with
  | PInf => Fin big
  | NInf => Fin (- big)
  | _ => f
  end.

(** What the specification asks of the clamping: [+inf] becomes [1e9],
    [-inf] becomes [-1e9], any other score is kept. *)
Definition clamped_to (raw pred : pyfloat) : Prop :=
  match raw with
  | PInf => pred = Fin big
  | NInf => pred = Fin (- big)
  | _ => pred = raw
  end.

(** What the specification asks of an ensemble: the scores of each
    architecture replaced by their mean, one value per architecture. *)
Definition mean_per_architecture (rows : list (list pyfloat))
  : list pyfloat :=
  map (fun r => fdiv_count (fsum r) (List.length r)) rows.

(** One object of the labelled test file: the values under ['arch'] and
    ['accuracy'], [None] when the key is missing. *)
Record entry (A Y : Type) : Type := mk_entry {
  entry_arch : option A;
  entry_accuracy : option Y
}.

Arguments mk_entry {A Y} _ _.
Arguments entry_arch {A Y} _.
Arguments entry_accuracy {A Y} _.

(** [x[key]] on such an object. *)
Definition field {V : Type} (v : option V) : result V :=
  match v with
  | Some a => Ok a
  | None => Raise KeyError
  end.

(** The loop of [load_dataset_from_file], from index [i] on:
    [for i, x in enumerate(data): if i >= size: break; ...]. *)
Fixpoint load_loop {A Y : Type} (i : nat) (size : Z) (data : list (entry A Y))
  : result (list A * list Y) :=
  match data with
  | [] => Ok ([], [])
  | x :: rest =>
      if (size <=? Z.of_nat i)%Z then Ok ([], [])
      else
        arch <- field (entry_arch x) ;;
        acc <- field (entry_accuracy x) ;;
        r <- load_loop (S i) size rest ;;
        Ok (arch :: fst r, acc :: snd r)
  end.

(** [load_dataset_from_file], on the parsed content of the file; the
    result is [[xdata, ydata, None, None]]. *)
Definition load_dataset_from_file {A Y : Type} (data : list (entry A Y))
    (size : Z) : result (list A * list Y) :=
  load_loop 0 size data.

(** Both keys of an object are present. *)
Definition well_formed {A Y : Type} (x : entry A Y) : Prop :=
  entry_arch x <> None /\ entry_accuracy x <> None.

(** How many objects the loop still reads from index [i] on. *)
Definition budget (size : Z) (i : nat) : nat := Z.to_nat (size - Z.of_nat i).

(** [evaluate] when [test_data_file] is set: [load_test_data] reads the
    file, [single_evaluate] queries the table under [str(arch)]. *)
Definition evaluate_from_file {A Y : Type} (str : A -> string)
    (zc_api : string -> option score) (data : list (entry A Y)) (size : Z)
  : result (list Y * list pyfloat) :=
  test_data <- load_dataset_from_file data size ;;
  single_evaluate zc_api (map str (fst test_data)) (snd test_data).

End ZeroCostPredictorEvaluator.

(** ** A concrete tensor algebra and concrete normalisers

    Scalar tensors over the rationals in canonical form, on which the
    embedding runs. *)

#[export] Instance QcTensor : TensorOps Qc := {|
  tadd := Qcplus;
  tscale := fun p v => Qcmult (Q2Qc p) v;
  tzero := Q2Qc 0
|}.

Definition qsum (l : list Q) : Q := fold_left Qplus l 0%Q.

(** Softmax on logits given by their exponentials: for logits
    [ln w1, ..., ln wn] the softmax is [wi / (w1 + ... + wn)]. *)
Definition softmax_of_weights (w : list Q) : list Q :=
  map (fun v => Qdiv v (qsum w)) w.

(** A hard (one-hot) sample as [F.gumbel_softmax(hard=True)] returns it:
    one at the largest entry, zero elsewhere. *)
Definition hard_one_hot (a : list Q) : list Q :=
  match DiffOP.argmax a with
  | Ok i => map (fun j => if (j =? i)%nat then 1%Q else 0%Q)
                (seq 0 (List.length a))
  | Raise _ => []
  end.

(** Three candidate operations on scalar tensors, named as in
    tests/test_models/test_mutables.py. *)
Definition three_candidates : ModuleDict Qc :=
  [ ("candidate1", fun v => Qcmult (Q2Qc 3) v);
    ("candidate2", fun v => Qcmult (Q2Qc 5) v);
    ("candidate3", fun v => Qcmult (Q2Qc 7) v) ].

(** Two candidates with one-letter names. *)
Definition two_candidates : ModuleDict Qc :=
  [ ("a", fun v => Qcmult (Q2Qc 3) v);
    ("b", fun v => Qcmult (Q2Qc 5) v) ].

(** Three edges of a route, named as in the docstring of
    [DiffChoiceRoute]. *)
Definition three_edges : ModuleDict Qc :=
  [ ("first_edge", fun v => Qcmult (Q2Qc 2) v);
    ("second_edge", fun v => Qcplus v (Q2Qc 1));
    ("third_edge", fun v => Qcmult v v) ].

Definition two_edges : ModuleDict Qc :=
  [ ("first_edge", fun v => Qcmult (Q2Qc 2) v);
    ("second_edge", fun v => Qcplus v (Q2Qc 1)) ].

(** Freshly built mutables. *)
Definition diffop3 : DiffOP.t :=
  DiffOP.mk false three_candidates Absent.

Definition dyna2 : DynaDiffOP.t :=
  DynaDiffOP.mk (DiffOP.mk false two_candidates Absent) (3 # 10).

Definition route3 : DiffChoiceRoute.t :=
  DiffChoiceRoute.mk false false three_edges Absent None.

Definition route2_with_param : DiffChoiceRoute.t :=
  DiffChoiceRoute.mk false true two_edges Absent None.

(** Two benchmark tables over three architectures: one with a number per
    architecture, one with the two scores of an ensemble per architecture. *)
Definition zc_scalar_table (arch : string)
  : option ZeroCostPredictorEvaluator.score :=
  if String.eqb arch "arch_a"
  then Some (ZeroCostPredictorEvaluator.Scalar ZeroCostPredictorEvaluator.PInf)
  else if String.eqb arch "arch_b"
  then Some (ZeroCostPredictorEvaluator.Scalar
               (ZeroCostPredictorEvaluator.Fin (5 # 2)))
  else if String.eqb arch "arch_c"
  then Some (ZeroCostPredictorEvaluator.Scalar ZeroCostPredictorEvaluator.NInf)
  else None.

Definition ensemble_scores : list (list ZeroCostPredictorEvaluator.pyfloat) :=
  map (map ZeroCostPredictorEvaluator.Fin) [[1; 2]; [3; 4]; [5; 6]].

Definition zc_ensemble_table (arch : string)
  : option ZeroCostPredictorEvaluator.score :=
  if String.eqb arch "arch_a"
  then Some (ZeroCostPredictorEvaluator.Scores (nth 0 ensemble_scores []))
  else if String.eqb arch "arch_b"
  then Some (ZeroCostPredictorEvaluator.Scores (nth 1 ensemble_scores []))
  else if String.eqb arch "arch_c"
  then Some (ZeroCostPredictorEvaluator.Scores (nth 2 ensemble_scores []))
  else None.

Definition three_archs : list string := ["arch_a"; "arch_b"; "arch_c"].

(** A table over two architectures with the two scores of an ensemble
    each, (inf, 1) and (2, 3). *)
Definition zc_infinite_ensemble_table (arch : string)
  : option ZeroCostPredictorEvaluator.score :=
  if String.eqb arch "arch_a"
  then Some (ZeroCostPredictorEvaluator.Scores
               [ZeroCostPredictorEvaluator.PInf;
                ZeroCostPredictorEvaluator.Fin 1])
  else if String.eqb arch "arch_b"
  then Some (ZeroCostPredictorEvaluator.Scores
               [ZeroCostPredictorEvaluator.Fin 2;
                ZeroCostPredictorEvaluator.Fin 3])
  else None.


(** A labelled test file of three objects, the last one without its
    ['accuracy']. *)
Definition labelled_file : list (ZeroCostPredictorEvaluator.entry string Z) :=
  [ ZeroCostPredictorEvaluator.mk_entry (Some "arch_a") (Some 90%Z);
    ZeroCostPredictorEvaluator.mk_entry (Some "arch_b") (Some 50%Z);
    ZeroCostPredictorEvaluator.mk_entry (Some "arch_c") None ].

(** * Properties *)

(** ** Pruning a [ModuleDict] *)

Section PruneFacts.
Context {T : Type}.

Lemma filter_twice (A : Type) (p q : A -> bool) (l : list A) :
  filter p (filter q l) = filter (fun a => q a && p a) l.
Proof.
  induction l as [|a l IH]; simpl; [reflexivity|].
  destruct (q a); simpl; [destruct (p a)|]; rewrite IH; reflexivity.
Qed.

Lemma prune_with_filter (drop : string -> bool) (ks : list string) :
  forall d : ModuleDict T,
    prune_with drop ks d =
    filter (fun kv =>
              negb (existsb (fun c => drop c && String.eqb (fst kv) c) ks)) d.
Proof.
  unfold prune_with.
  induction ks as [|c ks IH]; intro d; simpl.
  - induction d as [|kv d IHd]; simpl; [reflexivity|].
    rewrite <- IHd. reflexivity.
  - rewrite IH. destruct (drop c) eqn:Hc; simpl.
    + unfold pop. rewrite filter_twice. apply filter_ext. intro kv.
      destruct (String.eqb (fst kv) c); simpl; reflexivity.
    + reflexivity.
Qed.

Lemma prune_with_keys (drop : string -> bool) (d : ModuleDict T) :
  prune_with drop (keys d) d = filter (fun kv => negb (drop (fst kv))) d.
Proof.
  rewrite prune_with_filter. apply filter_ext_in. intros kv Hin.
  f_equal.
  destruct (existsb _ (keys d)) eqn:He.
  - apply existsb_exists in He. destruct He as (c & _ & Hc).
    apply andb_true_iff in Hc. destruct Hc as [Hd Heq].
    apply String.eqb_eq in Heq. subst c. symmetry. exact Hd.
  - destruct (drop (fst kv)) eqn:Hd; [|reflexivity].
    assert (Hex : existsb (fun c => drop c && String.eqb (fst kv) c)
                          (keys d) = true).
    { apply existsb_exists. exists (fst kv). split.
      - unfold keys. apply in_map. exact Hin.
      - rewrite Hd, String.eqb_refl. reflexivity. }
    congruence.
Qed.

Lemma DiffOP_prune_str (d : ModuleDict T) (c : string) :
  DiffOP.prune d (ChosenStr c) =
  filter (fun kv => String.eqb (fst kv) c) d.
Proof.
  unfold DiffOP.prune. rewrite prune_with_keys. apply filter_ext. intro kv. simpl.
  apply negb_involutive.
Qed.

Lemma DiffOP_prune_list (d : ModuleDict T) (l : list string) :
  DiffOP.prune d (ChosenList l) = [].
Proof.
  unfold DiffOP.prune. rewrite prune_with_keys. simpl.
  induction d as [|kv d IH]; simpl; auto.
Qed.

Lemma DiffChoiceRoute_prune (d : ModuleDict T) (chosen : list string) :
  DiffChoiceRoute.prune d chosen =
  filter (fun kv => str_in (fst kv) chosen) d.
Proof.
  unfold DiffChoiceRoute.prune. rewrite prune_with_keys. apply filter_ext. intro kv.
  apply negb_involutive.
Qed.

Lemma str_in_In (s : string) (l : list string) :
  str_in s l = true <-> In s l.
Proof.
  unfold str_in. rewrite existsb_exists. split.
  - intros (c & Hin & Heq). apply String.eqb_eq in Heq. subst. exact Hin.
  - intro Hin. exists s. split; [exact Hin | apply String.eqb_refl].
Qed.

Lemma keys_filter_In (p : string -> bool) (d : ModuleDict T) (k : string) :
  In k (keys (filter (fun kv => p (fst kv)) d)) <->
  In k (keys d) /\ p k = true.
Proof.
  unfold keys. rewrite !in_map_iff. split.
  - intros (kv & Hk & Hin). apply filter_In in Hin. destruct Hin as [Hin Hp].
    subst k. split; [exists kv; auto | exact Hp].
  - intros [(kv & Hk & Hin) Hp]. exists kv. split; [exact Hk|].
    apply filter_In. subst k. auto.
Qed.

End PruneFacts.

(** ** Fixing a mutable *)

(** X22. Fixing an unfixed [DiffOP] on one of its choices, given as a
    [str], or an unfixed [DiffChoiceRoute] on a list of its choices,
    succeeds, sets [is_fixed], and leaves in the candidate set exactly the
    chosen entries: every retained key is chosen, every chosen key is
    retained, and each retained entry is the original one. *)
Theorem fix_chosen_retains_exactly_chosen
    (T : Type) (op : DiffOP.t (T := T)) (route : DiffChoiceRoute.t (T := T))
    (c : string) (chosen : list string) :
  DiffOP.is_fixed op = false ->
  In c (DiffOP.choices op) ->
  DiffChoiceRoute.is_fixed route = false ->
  (forall k, In k chosen -> In k (DiffChoiceRoute.choices route)) ->
  let op' := fst (DiffOP.fix_chosen op (ChosenStr c)) in
  let route' := fst (DiffChoiceRoute.fix_chosen route chosen) in
  (snd (DiffOP.fix_chosen op (ChosenStr c)) = Ok tt /\
   DiffOP.is_fixed op' = true /\
   (forall k, In k (DiffOP.choices op') <-> k = c) /\
   DiffOP._candidate_ops op' =
     filter (fun kv => String.eqb (fst kv) c) (DiffOP._candidate_ops op)) /\
  (snd (DiffChoiceRoute.fix_chosen route chosen) = Ok tt /\
   DiffChoiceRoute.is_fixed route' = true /\
   (forall k, In k (DiffChoiceRoute.choices route') <-> In k chosen) /\
   DiffChoiceRoute._edges route' =
     filter (fun kv => str_in (fst kv) chosen)
            (DiffChoiceRoute._edges route)).
Proof.
  intros Hop Hc Hroute Hsub op' route'.
  subst op' route'.
  unfold DiffOP.fix_chosen, DiffChoiceRoute.fix_chosen.
  unfold DiffOP.is_fixed in *. unfold DiffChoiceRoute.is_fixed in *.
  simpl. rewrite Hop, Hroute. simpl.
  unfold DiffOP.choices, DiffChoiceRoute.choices in *. simpl.
  rewrite DiffOP_prune_str, DiffChoiceRoute_prune.
  repeat split; try reflexivity.
  - intro Hk.
    apply (keys_filter_In (fun k' => String.eqb k' c)) in Hk.
    apply String.eqb_eq. tauto.
  - intro Hk. subst k.
    apply (keys_filter_In (fun k' => String.eqb k' c)).
    split; [exact Hc | apply String.eqb_refl].
  - intro Hk.
    apply (keys_filter_In (fun k' => str_in k' chosen)) in Hk.
    apply str_in_In. tauto.
  - intro Hk.
    apply (keys_filter_In (fun k' => str_in k' chosen)).
    split; [apply Hsub; exact Hk | apply str_in_In; exact Hk].
Qed.

Lemma fix_chosen_retains_exactly_chosen_witness :
  let op' := fst (DiffOP.fix_chosen diffop3 (ChosenStr "candidate2")) in
  let route' :=
    fst (DiffChoiceRoute.fix_chosen route3 ["first_edge"; "third_edge"]) in
  (snd (DiffOP.fix_chosen diffop3 (ChosenStr "candidate2")) = Ok tt /\
   DiffOP.is_fixed op' = true /\
   (forall k, In k (DiffOP.choices op') <-> k = "candidate2") /\
   DiffOP._candidate_ops op' =
     filter (fun kv => String.eqb (fst kv) "candidate2")
            (DiffOP._candidate_ops diffop3)) /\
  (snd (DiffChoiceRoute.fix_chosen route3 ["first_edge"; "third_edge"])
     = Ok tt /\
   DiffChoiceRoute.is_fixed route' = true /\
   (forall k, In k (DiffChoiceRoute.choices route') <->
              In k ["first_edge"; "third_edge"]) /\
   DiffChoiceRoute._edges route' =
     filter (fun kv => str_in (fst kv) ["first_edge"; "third_edge"])
            (DiffChoiceRoute._edges route3)).
Proof.
  apply (fix_chosen_retains_exactly_chosen Qc diffop3 route3
           "candidate2" ["first_edge"; "third_edge"]).
  - reflexivity.
  - simpl. auto.
  - reflexivity.
  - simpl. intros k [Hk | [Hk | []]]; subst k; auto.
Defined.

(** C2, on the code. A [DiffOP] with the three candidates of the test,
    fixed on the list of two of its choices, ['candidate1', 'candidate3']:
    [fix_chosen] succeeds and sets [is_fixed], but no candidate is retained,
    the two chosen ones are lost with the third.  A [DiffChoiceRoute] fixed
    on a list of two of its edges retains exactly those two. *)
Theorem diffop_fix_chosen_on_list_loses_the_chosen :
  DiffOP.init ChosenMissing three_candidates = Ok diffop3 /\
  DiffOP.choices diffop3 = ["candidate1"; "candidate2"; "candidate3"] /\
  snd (DiffOP.fix_chosen diffop3 (ChosenList ["candidate1"; "candidate3"]))
    = Ok tt /\
  DiffOP.is_fixed
    (fst (DiffOP.fix_chosen diffop3 (ChosenList ["candidate1"; "candidate3"])))
    = true /\
  DiffOP.choices
    (fst (DiffOP.fix_chosen diffop3 (ChosenList ["candidate1"; "candidate3"])))
    = [] /\
  DiffChoiceRoute.choices
    (fst (DiffChoiceRoute.fix_chosen route3 ["first_edge"; "third_edge"]))
    = ["first_edge"; "third_edge"].
Proof.
  repeat (split; [reflexivity|]). reflexivity.
Qed.

(** A list handed to [DiffOP.fix_chosen] compares unequal to every key:
    the pruning loop then pops every candidate. *)
Lemma DiffOP_fix_chosen_list_empties
    (T : Type) (op : DiffOP.t (T := T)) (l : list string) :
  DiffOP.is_fixed op = false ->
  DiffOP._candidate_ops (fst (DiffOP.fix_chosen op (ChosenList l))) = [].
Proof.
  intro Hop. unfold DiffOP.fix_chosen. rewrite Hop. simpl.
  apply DiffOP_prune_list.
Qed.

(** C6. On a mutable whose [is_fixed] is already true, [fix_chosen] raises
    [AttributeError], whatever [chosen] is; the mutable stays fixed and its
    candidates are untouched. *)
Theorem fix_chosen_twice_raises
    (T : Type) (op : DiffOP.t (T := T)) (route : DiffChoiceRoute.t (T := T))
    (chosen : pychosen) (chosen_edges : list string) :
  DiffOP.is_fixed op = true ->
  DiffChoiceRoute.is_fixed route = true ->
  DiffOP.fix_chosen op chosen = (op, Raise AttributeError) /\
  snd (DiffChoiceRoute.fix_chosen route chosen_edges) = Raise AttributeError /\
  DiffChoiceRoute.is_fixed (fst (DiffChoiceRoute.fix_chosen route chosen_edges))
    = true /\
  DiffChoiceRoute._edges (fst (DiffChoiceRoute.fix_chosen route chosen_edges))
    = DiffChoiceRoute._edges route /\
  DiffChoiceRoute._chosen (fst (DiffChoiceRoute.fix_chosen route chosen_edges))
    = DiffChoiceRoute._chosen route.
Proof.
  intros Hop Hroute.
  unfold DiffOP.fix_chosen, DiffChoiceRoute.fix_chosen.
  unfold DiffChoiceRoute.is_fixed in *. simpl.
  rewrite Hop, Hroute. simpl. repeat split; assumption.
Qed.

Lemma fix_chosen_twice_raises_witness :
  let op := fst (DiffOP.fix_chosen diffop3 (ChosenStr "candidate2")) in
  let route :=
    fst (DiffChoiceRoute.fix_chosen route3 ["first_edge"; "third_edge"]) in
  DiffOP.fix_chosen op (ChosenStr "candidate2") = (op, Raise AttributeError) /\
  snd (DiffChoiceRoute.fix_chosen route ["first_edge"]) = Raise AttributeError.
Proof.
  intros op route.
  destruct (fix_chosen_twice_raises Qc op route (ChosenStr "candidate2")
              ["first_edge"]) as (H1 & H2 & _).
  - reflexivity.
  - reflexivity.
  - split; [exact H1 | exact H2].
Defined.

(** ** The fixed-mode forward before any fix *)

Lemma init_leaves_chosen_unset
    (T : Type) (b : base_init) (d : ModuleDict T) (thresh : Q) (wap : bool) :
  (forall op, DiffOP.init b d = Ok op ->
              unset (DiffOP._chosen op) = true /\ DiffOP.is_fixed op = false) /\
  (forall dy, DynaDiffOP.init b d thresh = Ok dy ->
              unset (DynaDiffOP._chosen dy) = true /\
              DynaDiffOP.is_fixed dy = false) /\
  (forall r, DiffChoiceRoute.init b d wap = Ok r ->
             unset (DiffChoiceRoute._chosen r) = true /\
             DiffChoiceRoute.is_fixed r = false).
Proof.
  unfold DynaDiffOP.init, DiffOP.init, DiffChoiceRoute.init.
  destruct (1 <=? List.length d)%nat; simpl;
    (split; [|split]); intros m Heq; inversion Heq; subst; simpl;
    destruct b; split; reflexivity.
Qed.

(** C7. As long as no [fix_chosen] has bound [_chosen], [forward_fixed]
    raises on every input, for [DiffOP] (and [DynaDiffOP], which inherits
    it) and for [DiffChoiceRoute]. *)
Theorem forward_fixed_before_fix_chosen_fails
    (T : Type) (ops : TensorOps T)
    (op : DiffOP.t (T := T)) (dyna : DynaDiffOP.t (T := T))
    (route : DiffChoiceRoute.t (T := T)) (x : T) (inputs : list T) :
  unset (DiffOP._chosen op) = true ->
  unset (DynaDiffOP._chosen dyna) = true ->
  unset (DiffChoiceRoute._chosen route) = true ->
  (exists e, DiffOP.forward_fixed op x = Raise e) /\
  (exists e, DynaDiffOP.forward_fixed dyna x = Raise e) /\
  (exists e, DiffChoiceRoute.forward_fixed route inputs = Raise e).
Proof.
  unfold DynaDiffOP.forward_fixed, DynaDiffOP._chosen.
  unfold DiffOP.forward_fixed, DiffChoiceRoute.forward_fixed.
  intros Hop Hdy Hroute.
  destruct (DiffOP._chosen op); try discriminate;
    destruct (DiffOP._chosen (DynaDiffOP.base dyna)); try discriminate;
    destruct (DiffChoiceRoute._chosen route); try discriminate;
    repeat split; eexists; reflexivity.
Qed.

Lemma forward_fixed_before_fix_chosen_fails_witness :
  (exists e, DiffOP.forward_fixed diffop3 (Q2Qc 1) = Raise e) /\
  (exists e, DynaDiffOP.forward_fixed dyna2 (Q2Qc 1) = Raise e) /\
  (exists e, DiffChoiceRoute.forward_fixed route3
               [Q2Qc 1; Q2Qc 2; Q2Qc 3] = Raise e).
Proof.
  apply (forward_fixed_before_fix_chosen_fails Qc QcTensor diffop3 dyna2
           route3 (Q2Qc 1) [Q2Qc 1; Q2Qc 2; Q2Qc 3]); reflexivity.
Defined.

(** ** [forward_all] *)

Section ForwardAllFacts.
Context {T : Type} `{TensorOps T}.

Lemma all_outputs_same_input (d : ModuleDict T) (x : T) :
  all_outputs (same_input_sites d x) = map (fun m => m x) (values d).
Proof.
  unfold all_outputs, same_input_sites, values.
  rewrite !map_map. reflexivity.
Qed.

Lemma all_outputs_zip (d : ModuleDict T) :
  forall xs : list T,
    all_outputs (zip_sites d xs) =
    map (fun mx => fst mx (snd mx)) (combine (values d) xs).
Proof.
  unfold all_outputs, zip_sites, values.
  induction d as [|kv d IH]; intros [|x xs]; simpl; try reflexivity.
  rewrite IH. reflexivity.
Qed.

Lemma applications_zip (d : ModuleDict T) :
  forall xs : list T,
    applications_of (zip_sites d xs) = combine (keys d) xs.
Proof.
  unfold applications_of, zip_sites, keys.
  induction d as [|kv d IH]; intros [|x xs]; simpl; try reflexivity.
  rewrite IH. reflexivity.
Qed.

End ForwardAllFacts.

(** C4, counterexample. An unfixed [DiffChoiceRoute] built with
    [with_arch_param=True]: [forward] without [arch_param] does not compute
    [forward_all], it raises, although [forward_all] on the same inputs
    returns the sum of the two edges' outputs ([2*1 + (2+1) = 5]). *)
Lemma forward_without_arch_param_not_forward_all :
  DiffChoiceRoute.is_fixed route2_with_param = false /\
  DiffChoiceRoute.forward softmax_of_weights route2_with_param
    [Q2Qc 1; Q2Qc 2] None = Raise AttributeError /\
  DiffChoiceRoute.forward_all route2_with_param [Q2Qc 1; Q2Qc 2]
    = Ok (Q2Qc 5) /\
  DiffChoiceRoute.forward softmax_of_weights route2_with_param
    [Q2Qc 1; Q2Qc 2] None
  <> DiffChoiceRoute.forward_all route2_with_param [Q2Qc 1; Q2Qc 2].
Proof.
  assert (Hall : DiffChoiceRoute.forward_all route2_with_param
                   [Q2Qc 1; Q2Qc 2] = Ok (Q2Qc 5)).
  { reflexivity. }
  repeat split; try reflexivity; try exact Hall.
  rewrite Hall. discriminate.
Qed.

(** C4, amended. For an unfixed [DiffOP] or [DynaDiffOP], [forward]
    without [arch_param] computes [forward_all]; for an unfixed
    [DiffChoiceRoute] whose number of inputs equals its number of edges,
    [forward] computes [forward_all] when the route was built with
    [with_arch_param=False] (whatever [arch_param] is) and raises when it
    was built with [with_arch_param=True] and [arch_param] is absent.  In
    every variant [forward_all] returns the sum of every candidate's output
    on the input (of each edge's output on its corresponding input). *)
Theorem forward_all_is_sum_of_candidates
    (T : Type) (ops : TensorOps T) (normalize : list Q -> list Q)
    (op : DiffOP.t (T := T)) (dyna : DynaDiffOP.t (T := T))
    (route : DiffChoiceRoute.t (T := T))
    (x : T) (xs : list T) (arch_param : option (list Q)) :
  DiffOP.is_fixed op = false ->
  DynaDiffOP.is_fixed dyna = false ->
  DiffChoiceRoute.is_fixed route = false ->
  List.length xs = List.length (DiffChoiceRoute._edges route) ->
  (DiffOP.forward normalize op x None = DiffOP.forward_all op x /\
   DiffOP.forward_all op x =
     Ok (py_sum (map (fun m => m x) (values (DiffOP._candidate_ops op))))) /\
  (DynaDiffOP.forward normalize dyna x None
     = (dyna, DynaDiffOP.forward_all dyna x) /\
   DynaDiffOP.forward_all dyna x =
     Ok (py_sum (map (fun m => m x)
                     (values (DynaDiffOP._candidate_ops dyna))))) /\
  (DiffChoiceRoute.forward_all route xs =
     Ok (py_sum (map (fun mx => fst mx (snd mx))
                     (combine (values (DiffChoiceRoute._edges route)) xs))) /\
   (DiffChoiceRoute._with_arch_param route = false ->
    DiffChoiceRoute.forward normalize route xs arch_param
      = DiffChoiceRoute.forward_all route xs) /\
   (DiffChoiceRoute._with_arch_param route = true ->
    DiffChoiceRoute.forward normalize route xs None = Raise AttributeError)).
Proof.
  intros Hop Hdy Hroute Hlen.
  apply Nat.eqb_eq in Hlen.
  split; [|split].
  - split.
    + unfold DiffOP.forward. rewrite Hop. reflexivity.
    + unfold DiffOP.forward_all. rewrite all_outputs_same_input. reflexivity.
  - split.
    + unfold DynaDiffOP.forward. rewrite Hdy. reflexivity.
    + unfold DynaDiffOP.forward_all, DiffOP.forward_all.
      rewrite all_outputs_same_input. reflexivity.
  - unfold DiffChoiceRoute.forward. rewrite Hroute.
    unfold DiffChoiceRoute.forward_arch_param, DiffChoiceRoute.forward_all.
    unfold DiffChoiceRoute.forward_arch_param_traced.
    unfold DiffChoiceRoute.forward_all_traced.
    rewrite Hlen. simpl. rewrite all_outputs_zip.
    split; [reflexivity|].
    split; intro Hw; rewrite Hw; reflexivity.
Qed.

Lemma forward_all_is_sum_of_candidates_witness :
  DiffOP.forward softmax_of_weights diffop3 (Q2Qc 1) None
    = DiffOP.forward_all diffop3 (Q2Qc 1) /\
  DiffChoiceRoute.forward softmax_of_weights route3
    [Q2Qc 1; Q2Qc 2; Q2Qc 3] (Some [1; 2; 3]%Q)
    = DiffChoiceRoute.forward_all route3 [Q2Qc 1; Q2Qc 2; Q2Qc 3].
Proof.
  destruct (forward_all_is_sum_of_candidates Qc QcTensor softmax_of_weights
              diffop3 dyna2 route3 (Q2Qc 1) [Q2Qc 1; Q2Qc 2; Q2Qc 3]
              (Some [1; 2; 3]%Q))
    as ((H1 & _) & _ & (_ & H3 & _)); try reflexivity.
  split; [exact H1 | apply H3; reflexivity].
Defined.

(** ** The weighted mixture *)

Section MixtureFacts.
Context {T : Type} `{TensorOps T}.

(** Adding a candidate weighted by a zero probability changes nothing. *)
Hypothesis zero_weight_neutral :
  forall (acc : T) (p : Q) (v : T), p == 0 -> tadd acc (tscale p v) = acc.





End MixtureFacts.






(** ** Fixing a [DiffOP] and forwarding *)

Section FixedForwardFacts.
Context {T : Type} `{TensorOps T}.
Variable normalize : list Q -> list Q.

Lemma getitem_absent (d : ModuleDict T) (key : string) :
  (forall kv, In kv d -> fst kv <> key) -> getitem d key = Raise KeyError.
Proof.
  unfold getitem. induction d as [|kv d IH]; intro Hne; simpl.
  - reflexivity.
  - destruct (String.eqb (fst kv) key) eqn:Heq.
    + apply String.eqb_eq in Heq. exfalso.
      apply (Hne kv); [left; reflexivity | exact Heq].
    + apply IH. intros kv' Hin. apply Hne. right. exact Hin.
Qed.

(** X6. After [fix_chosen(c)] with a name [c] of two letters or more, the
    fixed forward looks up the first letter of [c] among the candidates
    and raises [KeyError], whatever the input and [arch_param]. *)
Lemma forward_after_fix_on_long_name
    (op : DiffOP.t (T := T)) (c : string) (x : T)
    (arch_param : option (list Q)) :
  DiffOP.is_fixed op = false ->
  (2 <= String.length c)%nat ->
  DiffOP.forward normalize (fst (DiffOP.fix_chosen op (ChosenStr c)))
    x arch_param = Raise KeyError.
Proof.
  intros Hop Hlen.
  unfold DiffOP.fix_chosen. rewrite Hop. simpl.
  unfold DiffOP.forward, DiffOP.forward_fixed. simpl.
  rewrite DiffOP_prune_str.
  destruct c as [|a [|b rest]]; simpl in Hlen; try lia.
  simpl. rewrite getitem_absent; [reflexivity|].
  intros kv Hin Hkey. apply filter_In in Hin. destruct Hin as [_ Heq].
  apply String.eqb_eq in Heq. rewrite Hkey in Heq. discriminate.
Qed.

(** X21. After [fix_chosen] with a non-empty list, as the annotation of
    [chosen] allows, no candidate is left to look up: the forward raises
    [KeyError]. *)
Lemma forward_after_fix_on_list
    (op : DiffOP.t (T := T)) (c : string) (rest : list string) (x : T)
    (arch_param : option (list Q)) :
  DiffOP.is_fixed op = false ->
  DiffOP._candidate_ops (fst (DiffOP.fix_chosen op (ChosenList (c :: rest))))
    = [] /\
  DiffOP.forward normalize
    (fst (DiffOP.fix_chosen op (ChosenList (c :: rest)))) x arch_param
  = Raise KeyError.
Proof.
  intro Hop.
  unfold DiffOP.fix_chosen. rewrite Hop. simpl.
  unfold DiffOP.forward, DiffOP.forward_fixed. simpl.
  rewrite DiffOP_prune_list. split; reflexivity.
Qed.

(** When [DynaDiffOP] decides to fix, it fixes on the second choice in
    insertion order, whichever probability is the largest. *)
Lemma dyna_fixes_on_second_choice
    (dyna : DynaDiffOP.t (T := T)) (x : T) (a : list Q)
    (top : Q * Q) (c : string) :
  DynaDiffOP.is_fixed dyna = false ->
  topk2 (normalize a) = Ok top ->
  Qle_bool (DynaDiffOP.dyna_thresh dyna) (fst top - snd top) = true ->
  nth_error (DynaDiffOP.choices dyna) 1 = Some c ->
  let dyna' := fst (DynaDiffOP.forward normalize dyna x (Some a)) in
  DynaDiffOP.is_fixed dyna' = true /\
  DynaDiffOP._chosen dyna' = Bound (ChosenStr c).
Proof.
  intros Hfix Htop Hgap Hc.
  unfold DynaDiffOP.forward. rewrite Hfix.
  unfold DynaDiffOP.forward_arch_param. simpl.
  rewrite Hfix. cbv beta iota delta [negb compute_arch_probs].
  rewrite Htop. cbv beta iota. rewrite Hgap.
  cbv beta iota delta [bool_index]. rewrite Hc.
  unfold DynaDiffOP.fix_chosen, DiffOP.fix_chosen.
  unfold DynaDiffOP.is_fixed in Hfix. rewrite Hfix. simpl.
  split; reflexivity.
Qed.

(** Once fixed, a forward leaves the [DynaDiffOP] as it is: nothing resets
    [is_fixed], and the forward no longer looks at [arch_param]. *)
Lemma dyna_forward_keeps_fixed
    (dyna : DynaDiffOP.t (T := T)) (x : T) (arch_param : option (list Q)) :
  DynaDiffOP.is_fixed dyna = true ->
  DynaDiffOP.forward normalize dyna x arch_param
  = (dyna, DynaDiffOP.forward_fixed dyna x).
Proof.
  intro Hfix. unfold DynaDiffOP.forward. rewrite Hfix. reflexivity.
Qed.

End FixedForwardFacts.

(** C3, on the code. A [DiffOP] with the three candidates of the test,
    fixed on ["candidate1"]: the call to [fix_chosen] succeeds, yet
    [forward] raises [KeyError] where the candidate itself returns [3]
    on the input [1]; handing the choice as a list raises as well.  With a
    one-letter name the same calls do return the candidate's output. *)
Theorem forward_after_fix_raises_key_error :
  DiffOP.init ChosenMissing three_candidates = Ok diffop3 /\
  snd (DiffOP.fix_chosen diffop3 (ChosenStr "candidate1")) = Ok tt /\
  DiffOP.choices (fst (DiffOP.fix_chosen diffop3 (ChosenStr "candidate1")))
    = ["candidate1"] /\
  DiffOP.forward softmax_of_weights
    (fst (DiffOP.fix_chosen diffop3 (ChosenStr "candidate1")))
    (Q2Qc 1) None = Raise KeyError /\
  (m <- getitem three_candidates "candidate1" ;; Ok (m (Q2Qc 1)))
    = Ok (Q2Qc 3) /\
  DiffOP.forward softmax_of_weights
    (fst (DiffOP.fix_chosen diffop3 (ChosenList ["candidate1"])))
    (Q2Qc 1) None = Raise KeyError /\
  DiffOP.forward softmax_of_weights
    (fst (DiffOP.fix_chosen (DiffOP.mk false two_candidates Absent)
            (ChosenStr "a")))
    (Q2Qc 1) None = Ok (Q2Qc 3).
Proof.
  repeat (split; [reflexivity|]). reflexivity.
Qed.

(** C1, on the code. A [DynaDiffOP] with the three candidates of the test
    and threshold 0.3, on an architecture parameter whose softmax is
    (0.8, 0.1, 0.1): the leading choice is ["candidate1"], the top-2 gap
    0.7 reaches the threshold, and the call fixes the mutable on
    ["candidate2"], the second choice, returning 0.8 times the output of
    candidate2; the next forward raises [KeyError]. *)
Theorem dyna_fix_ignores_leading_choice :
  let dyna := DynaDiffOP.mk diffop3 (3 # 10) in
  let a := [8; 1; 1] in
  let r := DynaDiffOP.forward softmax_of_weights dyna (Q2Qc 1) (Some a) in
  DynaDiffOP.init ChosenMissing three_candidates (3 # 10) = Ok dyna /\
  Forall2 Qeq (softmax_of_weights a) [8 # 10; 1 # 10; 1 # 10] /\
  DynaDiffOP.sample_choice softmax_of_weights dyna a = Ok "candidate1" /\
  DynaDiffOP.is_fixed (fst r) = true /\
  DynaDiffOP._chosen (fst r) = Bound (ChosenStr "candidate2") /\
  DynaDiffOP.choices (fst r) = ["candidate2"] /\
  snd r = Ok (Q2Qc 4) /\
  snd (DynaDiffOP.forward softmax_of_weights (fst r) (Q2Qc 1) (Some a))
    = Raise KeyError.
Proof.
  cbv zeta.
  split; [reflexivity|].
  split; [repeat constructor; reflexivity|].
  repeat (split; [reflexivity|]). reflexivity.
Qed.

(** ** The evaluator *)

Module ZeroCostFacts.
Import ZeroCostPredictorEvaluator.

Lemma clamp_scalar (f : pyfloat) : clamp (Scalar f) = Scalar (clamp_float f).
Proof. destruct f; reflexivity. Qed.

Lemma clamp_scores (l : list pyfloat) : clamp (Scores l) = Scores l.
Proof. reflexivity. Qed.

(** No infinite number is left as a score by the query loop. *)
Lemma clamp_not_infinite (pred : score) :
  eq_pos_inf (clamp pred) = false /\ eq_neg_inf (clamp pred) = false.
Proof. destruct pred as [[| | |]|l]; split; reflexivity. Qed.

Lemma query_map (zc_api : string -> option score) (xtest : list string) :
  forall preds : list score,
    map zc_api xtest = map Some preds ->
    query zc_api xtest = Ok (map clamp preds).
Proof.
  unfold query.
  induction xtest as [|arch xtest IH]; intros [|p preds] Heq;
    simpl in Heq; try discriminate.
  - reflexivity.
  - injection Heq as Hp Hrest. simpl. rewrite Hp. simpl.
    rewrite (IH preds Hrest). reflexivity.
Qed.

Lemma all_some_scalars (v : list pyfloat) :
  all_some (map as_scalar (map Scalar v)) = Some v.
Proof.
  induction v as [|f v IH]; simpl; [reflexivity|].
  rewrite IH. reflexivity.
Qed.

Lemma np_array_scalars (v : list pyfloat) :
  np_array (map Scalar v) = Ok (Arr1 v).
Proof.
  destruct v as [|f v]; [reflexivity|].
  unfold np_array. simpl.
  rewrite all_some_scalars. reflexivity.
Qed.

Lemma all_some_rows (k : nat) (rows : list (list pyfloat)) :
  Forall (fun r => List.length r = k) rows ->
  all_some (map (as_row k) (map Scores rows)) = Some rows.
Proof.
  induction 1 as [|r rows Hr _ IH]; simpl; [reflexivity|].
  apply Nat.eqb_eq in Hr. rewrite Hr, IH. reflexivity.
Qed.

Lemma np_array_rows (k : nat) (r : list pyfloat) (rows : list (list pyfloat)) :
  Forall (fun r' => List.length r' = k) (r :: rows) ->
  np_array (map Scores (r :: rows)) = Ok (Arr2 (r :: rows) k).
Proof.
  intro Hk.
  assert (Hr : List.length r = k) by (inversion Hk; assumption).
  pose proof (all_some_rows k (r :: rows) Hk) as Hall.
  unfold np_array. cbn [map] in *. rewrite Hr, Hall. reflexivity.
Qed.

Lemma clamped_to_clamp_float (raw : list pyfloat) :
  Forall2 clamped_to raw (map clamp_float raw).
Proof.
  induction raw as [|f raw IH]; simpl; constructor; [|exact IH].
  destruct f; reflexivity.
Qed.

Lemma clamp_float_finite (raw : list pyfloat) :
  Forall (fun f => is_infinite f = false) (map clamp_float raw).
Proof.
  induction raw as [|f raw IH]; simpl; constructor; [|exact IH].
  destruct f; reflexivity.
Qed.

(** X17. With the [k] scores of an ensemble for every architecture (at
    least one architecture), what [single_evaluate] hands to the
    correlation computation has [k] entries, however many architectures
    and accuracies there are. *)
Lemma ensemble_length
    (Y : Type) (zc_api : string -> option score) (xtest : list string)
    (ytest : list Y) (r : list pyfloat) (rows : list (list pyfloat))
    (k : nat) :
  map zc_api xtest = map (fun r' => Some (Scores r')) (r :: rows) ->
  Forall (fun r' => List.length r' = k) (r :: rows) ->
  exists test_pred,
    single_evaluate zc_api xtest ytest = Ok (ytest, test_pred) /\
    List.length test_pred = k.
Proof.
  intros Hq Hk. unfold single_evaluate.
  rewrite <- (map_map Scores Some) in Hq.
  rewrite (query_map _ _ _ Hq).
  assert (Hc : map clamp (map Scores (r :: rows)) = map Scores (r :: rows)).
  { rewrite map_map. apply map_ext. intro l. reflexivity. }
  rewrite Hc. cbn [bind]. rewrite (np_array_rows k r rows Hk). cbn [bind aggregate].
  eexists. split; [reflexivity|].
  unfold mean_axis0. rewrite length_map, length_seq. reflexivity.
Qed.

End ZeroCostFacts.

(** C8, on the code. Two architectures with the two scores of an ensemble
    each, (inf, 1) and (2, 3): a list compares unequal to [float('inf')],
    so the infinite score is appended unclamped, and the array handed to
    the correlation computation is (inf, 2): it contains an infinite
    entry. *)
Theorem ensemble_infinite_score_is_not_clamped :
  ZeroCostPredictorEvaluator.query zc_infinite_ensemble_table
    ["arch_a"; "arch_b"]
  = Ok [ZeroCostPredictorEvaluator.Scores
          [ZeroCostPredictorEvaluator.PInf; ZeroCostPredictorEvaluator.Fin 1];
        ZeroCostPredictorEvaluator.Scores
          [ZeroCostPredictorEvaluator.Fin 2; ZeroCostPredictorEvaluator.Fin 3]]
  /\
  ZeroCostPredictorEvaluator.single_evaluate zc_infinite_ensemble_table
    ["arch_a"; "arch_b"] [90; 50]%Z
  = Ok ([90; 50]%Z,
        [ZeroCostPredictorEvaluator.PInf; ZeroCostPredictorEvaluator.Fin 2])
  /\
  existsb ZeroCostPredictorEvaluator.is_infinite
    [ZeroCostPredictorEvaluator.PInf; ZeroCostPredictorEvaluator.Fin 2]
  = true.
Proof.
  split; [|split]; vm_compute; reflexivity.
Qed.

(** X23. When every test architecture has a number as its score,
    [single_evaluate] hands to the correlation computation the scores with
    [+inf] replaced by [1e9] and [-inf] by [-1e9], all others unchanged;
    that array has one entry per architecture and no infinite entry. *)
Theorem single_evaluate_clamps_infinite_scores
    (Y : Type) (zc_api : string -> option ZeroCostPredictorEvaluator.score)
    (xtest : list string) (ytest : list Y)
    (raw : list ZeroCostPredictorEvaluator.pyfloat) :
  map zc_api xtest
    = map (fun f => Some (ZeroCostPredictorEvaluator.Scalar f)) raw ->
  exists test_pred,
    ZeroCostPredictorEvaluator.single_evaluate zc_api xtest ytest
      = Ok (ytest, test_pred) /\
    Forall2 ZeroCostPredictorEvaluator.clamped_to raw test_pred /\
    Forall (fun f => ZeroCostPredictorEvaluator.is_infinite f = false)
           test_pred /\
    List.length test_pred = List.length xtest.
Proof.
  intro Hq. exists (map ZeroCostPredictorEvaluator.clamp_float raw).
  split; [|split; [|split]].
  - unfold ZeroCostPredictorEvaluator.single_evaluate.
    rewrite <- (map_map ZeroCostPredictorEvaluator.Scalar Some) in Hq.
    rewrite (ZeroCostFacts.query_map _ _ _ Hq).
    rewrite map_map.
    rewrite (map_ext _ _ ZeroCostFacts.clamp_scalar).
    rewrite <- (map_map ZeroCostPredictorEvaluator.clamp_float
                  ZeroCostPredictorEvaluator.Scalar).
    cbn [bind]. rewrite ZeroCostFacts.np_array_scalars. reflexivity.
  - apply ZeroCostFacts.clamped_to_clamp_float.
  - apply ZeroCostFacts.clamp_float_finite.
  - rewrite length_map.
    apply (f_equal (@List.length _)) in Hq. rewrite !length_map in Hq.
    symmetry. exact Hq.
Qed.

Lemma single_evaluate_clamps_infinite_scores_witness :
  exists test_pred,
    ZeroCostPredictorEvaluator.single_evaluate zc_scalar_table three_archs
      [90; 50; 70]%Z = Ok ([90; 50; 70]%Z, test_pred) /\
    Forall2 ZeroCostPredictorEvaluator.clamped_to
      [ZeroCostPredictorEvaluator.PInf;
       ZeroCostPredictorEvaluator.Fin (5 # 2);
       ZeroCostPredictorEvaluator.NInf] test_pred /\
    Forall (fun f => ZeroCostPredictorEvaluator.is_infinite f = false)
           test_pred /\
    List.length test_pred = List.length three_archs.
Proof.
  apply (single_evaluate_clamps_infinite_scores Z zc_scalar_table three_archs
           [90; 50; 70]%Z
           [ZeroCostPredictorEvaluator.PInf;
            ZeroCostPredictorEvaluator.Fin (5 # 2);
            ZeroCostPredictorEvaluator.NInf]).
  reflexivity.
Defined.

(** C9, on the code. Three architectures with the two scores of an
    ensemble each, (1, 2), (3, 4) and (5, 6): the array is 3 x 2 and the
    mean along axis 0 hands two values, (3, 4), the means over the
    architectures of each ensemble member, to the correlation with the three
    accuracies; the per-architecture means are (1.5, 3.5, 5.5). *)
Theorem ensemble_mean_runs_across_architectures :
  ZeroCostPredictorEvaluator.single_evaluate zc_ensemble_table three_archs
    [90; 50; 70]%Z
  = Ok ([90; 50; 70]%Z,
        [ZeroCostPredictorEvaluator.Fin 3; ZeroCostPredictorEvaluator.Fin 4]) /\
  ZeroCostPredictorEvaluator.mean_per_architecture ensemble_scores
  = [ZeroCostPredictorEvaluator.Fin (3 # 2);
     ZeroCostPredictorEvaluator.Fin (7 # 2);
     ZeroCostPredictorEvaluator.Fin (11 # 2)].
Proof.
  split; vm_compute; reflexivity.
Qed.

(** ** Edges and inputs of a route *)

Section RouteFacts.
Context {T : Type} `{TensorOps T}.

Lemma mixture_applications (probs : list Q) :
  forall (d : ModuleDict T) (xs : list T),
    applications_of (map snd (mixture_sites probs (zip_sites d xs))) =
    map snd (filter (fun pc => prob_pos (fst pc))
                    (combine probs (combine (keys d) xs))).
Proof.
  unfold applications_of, mixture_sites, zip_sites, keys.
  induction probs as [|p probs IH]; intros [|kv d] [|x xs]; simpl;
    try reflexivity.
  destruct (prob_pos p); simpl; rewrite IH; reflexivity.
Qed.

End RouteFacts.

(** C10, counterexample. A route with two edges and two inputs, built with
    [with_arch_param=True], on a hard one-hot sample (1, 0): the lengths
    agree, yet only the first edge is applied (to the first input); the
    second edge and the second input take no part in the result. *)
Lemma route_mixture_drops_zero_probability_edge :
  List.length [Q2Qc 1; Q2Qc 2]
    = List.length (DiffChoiceRoute._edges route2_with_param) /\
  hard_one_hot [3; 1] = [1; 0] /\
  DiffChoiceRoute.choices route2_with_param = ["first_edge"; "second_edge"] /\
  DiffChoiceRoute.forward_arch_param_traced hard_one_hot route2_with_param
    [Q2Qc 1; Q2Qc 2] (Some [3; 1])
  = Ok ([("first_edge", Q2Qc 1)], Q2Qc 2) /\
  DiffChoiceRoute.forward_arch_param hard_one_hot route2_with_param
    [Q2Qc 1; Q2Qc 2] (Some [3; 1])
  = DiffChoiceRoute.forward_arch_param hard_one_hot route2_with_param
      [Q2Qc 1; Q2Qc 7] (Some [3; 1]).
Proof.
  repeat (split; [reflexivity|]). reflexivity.
Qed.

(** C10, amended. [forward_arch_param] and [forward_all] of a
    [DiffChoiceRoute] raise [AssertionError] whenever the number of inputs
    differs from the number of edges.  When the two agree, [forward_all]
    (and [forward_arch_param] of a route built with
    [with_arch_param=False]) applies every edge to the input at its own
    position, once each; [forward_arch_param] of a route built with
    [with_arch_param=True], given one probability per edge, applies, to the
    input at its own position, exactly the edges whose computed probability
    is positive. *)
Theorem route_edges_meet_their_inputs
    (T : Type) (ops : TensorOps T) (normalize : list Q -> list Q)
    (route : DiffChoiceRoute.t (T := T)) (bad good : list T)
    (arch_param : option (list Q)) (a : list Q) :
  List.length bad <> List.length (DiffChoiceRoute._edges route) ->
  List.length good = List.length (DiffChoiceRoute._edges route) ->
  (DiffChoiceRoute.forward_arch_param normalize route bad arch_param
     = Raise AssertionError /\
   DiffChoiceRoute.forward_all route bad = Raise AssertionError) /\
  (exists out,
     DiffChoiceRoute.forward_all_traced route good
       = Ok (combine (DiffChoiceRoute.choices route) good, out) /\
     List.length (combine (DiffChoiceRoute.choices route) good)
       = List.length (DiffChoiceRoute._edges route)) /\
  (DiffChoiceRoute._with_arch_param route = false ->
   DiffChoiceRoute.forward_arch_param_traced normalize route good arch_param
     = DiffChoiceRoute.forward_all_traced route good) /\
  (DiffChoiceRoute._with_arch_param route = true ->
   List.length (normalize a) = List.length (DiffChoiceRoute._edges route) ->
   exists out,
     DiffChoiceRoute.forward_arch_param_traced normalize route good (Some a)
       = Ok (map snd
               (filter (fun pc => prob_pos (fst pc))
                  (combine (normalize a)
                     (combine (DiffChoiceRoute.choices route) good))),
             out)).
Proof.
  intros Hbad Hgood.
  unfold DiffChoiceRoute.forward_arch_param, DiffChoiceRoute.forward_all.
  unfold DiffChoiceRoute.forward_arch_param_traced.
  unfold DiffChoiceRoute.forward_all_traced, DiffChoiceRoute.choices.
  apply Nat.eqb_neq in Hbad. rewrite Hbad.
  pose proof Hgood as Hlen.
  apply Nat.eqb_eq in Hgood. rewrite Hgood.
  split; [split; reflexivity|].
  split.
  - eexists. rewrite applications_zip. split; [reflexivity|].
    unfold keys. rewrite length_combine, length_map, Hlen.
    apply Nat.min_id.
  - split; intro Hw; rewrite Hw; [reflexivity|].
    intros _. eexists. simpl. rewrite mixture_applications. reflexivity.
Qed.

Lemma route_edges_meet_their_inputs_witness :
  DiffChoiceRoute.forward_all route3 [Q2Qc 1] = Raise AssertionError /\
  exists out,
    DiffChoiceRoute.forward_all_traced route3 [Q2Qc 1; Q2Qc 2; Q2Qc 3]
    = Ok (combine (DiffChoiceRoute.choices route3)
                  [Q2Qc 1; Q2Qc 2; Q2Qc 3], out).
Proof.
  destruct (route_edges_meet_their_inputs Qc QcTensor softmax_of_weights
              route3 [Q2Qc 1] [Q2Qc 1; Q2Qc 2; Q2Qc 3] None [1; 2; 3])
    as ((_ & H1) & (out & H2 & _) & _).
  - simpl. discriminate.
  - reflexivity.
  - split; [exact H1 | exists out; exact H2].
Defined.

(** * Further properties of the mutables *)

(** ** Dictionaries with unique keys *)

Section UniqueKeys.
Context {T : Type}.

Lemma keys_filter (p : string -> bool) (d : ModuleDict T) :
  keys (filter (fun kv => p (fst kv)) d) = filter p (keys d).
Proof.
  unfold keys. induction d as [|kv d IH]; simpl; [reflexivity|].
  destruct (p (fst kv)); simpl; rewrite IH; reflexivity.
Qed.

Lemma keys_filter_unique (p : string -> bool) (d : ModuleDict T) :
  NoDup (keys d) -> NoDup (keys (filter (fun kv => p (fst kv)) d)).
Proof.
  intro Hd. rewrite keys_filter. apply NoDup_filter. exact Hd.
Qed.

Lemma getitem_unique (d : ModuleDict T) (k : string) (m : T -> T) :
  NoDup (keys d) -> In (k, m) d -> getitem d k = Ok m.
Proof.
  unfold getitem, keys.
  induction d as [|kv d IH]; intros Hd Hin; simpl in *; [contradiction|].
  inversion Hd as [|? ? Hnotin Hd']; subst.
  destruct (String.eqb (fst kv) k) eqn:Heq.
  - apply String.eqb_eq in Heq.
    destruct Hin as [Hkv | Hin]; [subst kv; reflexivity|].
    exfalso. apply Hnotin. rewrite Heq.
    change k with (fst (k, m)). apply in_map. exact Hin.
  - destruct Hin as [Hkv | Hin].
    + subst kv. simpl in Heq. rewrite String.eqb_refl in Heq. discriminate.
    + apply IH; assumption.
Qed.

Lemma getitem_filter_unique (p : string -> bool) (d : ModuleDict T)
    (k : string) (m : T -> T) :
  NoDup (keys d) -> In (k, m) d -> p k = true ->
  getitem (filter (fun kv => p (fst kv)) d) k = Ok m.
Proof.
  intros Hd Hin Hp. apply getitem_unique.
  - apply keys_filter_unique. exact Hd.
  - apply filter_In. split; [exact Hin | exact Hp].
Qed.

(** A name filter on a dictionary with unique keys keeps at most one
    entry. *)
Lemma filter_key_at_most_one (d : ModuleDict T) (c : string) :
  NoDup (keys d) ->
  (List.length (filter (fun kv => String.eqb (fst kv) c) d) <= 1)%nat.
Proof.
  unfold keys. induction d as [|kv d IH]; intro Hd; simpl; [lia|].
  inversion Hd as [|? ? Hnotin Hd']; subst.
  destruct (String.eqb (fst kv) c) eqn:Heq; [|apply IH; exact Hd'].
  apply String.eqb_eq in Heq.
  assert (Hnone : filter (fun kv' => String.eqb (fst kv') c) d = []).
  { destruct (filter (fun kv' => String.eqb (fst kv') c) d) as [|kv' l] eqn:Hf;
      [reflexivity|].
    exfalso. apply Hnotin.
    assert (Hin : In kv' (filter (fun kv'' => String.eqb (fst kv'') c) d))
      by (rewrite Hf; left; reflexivity).
    apply filter_In in Hin. destruct Hin as [Hin Hc].
    apply String.eqb_eq in Hc. rewrite Heq, <- Hc. apply in_map. exact Hin. }
  rewrite Hnone. simpl. lia.
Qed.

End UniqueKeys.

(** ** The fixed forward of a route *)

Section RouteFixedFacts.
Context {T : Type} `{TensorOps T}.

(** The loop of [DiffChoiceRoute.forward_fixed] over a part [l] of the
    original edges, looking the modules up in the pruned dictionary. *)
Lemma forward_fixed_loop (d : ModuleDict T) (chosen : list string) :
  NoDup (keys d) ->
  forall (l : ModuleDict T) (inputs : list T),
    incl l d ->
    mapM (fun cx : string * T =>
            m <- getitem (filter (fun kv => str_in (fst kv) chosen) d)
                         (fst cx) ;;
            Ok (m (snd cx)))
         (filter (fun cx => str_in (fst cx) chosen) (combine (keys l) inputs))
    = Ok (all_outputs
            (filter (fun s => str_in (site_name s) chosen)
                    (zip_sites l inputs))).
Proof.
  intro Hd. unfold all_outputs, zip_sites, keys.
  induction l as [|[k m] l IH]; intros [|x inputs] Hl; simpl;
    try reflexivity.
  assert (Hl' : incl l d) by (intros kv Hkv; apply Hl; right; exact Hkv).
  unfold site_name at 1. simpl.
  destruct (str_in k chosen) eqn:Hk; simpl.
  - rewrite (getitem_filter_unique (fun k' => str_in k' chosen) d k m Hd);
      [|apply Hl; left; reflexivity | exact Hk].
    simpl. rewrite (IH inputs Hl'). reflexivity.
  - apply IH. exact Hl'.
Qed.

End RouteFixedFacts.

(** X1. Fixing an unfixed route (unique edge names) and then calling
    [forward_fixed] returns the sum, over the edges named in [chosen], of
    the edge applied to the input at the position the edge had before the
    fix.  No length is checked: with too few inputs the sum silently runs
    over fewer edges, with none it is the integer 0. *)
Theorem route_fix_then_forward_fixed
    (T : Type) (ops : TensorOps T) (route : DiffChoiceRoute.t (T := T))
    (chosen : list string) (inputs : list T) :
  DiffChoiceRoute.is_fixed route = false ->
  NoDup (DiffChoiceRoute.choices route) ->
  let route' := fst (DiffChoiceRoute.fix_chosen route chosen) in
  DiffChoiceRoute.forward_fixed route' inputs =
    Ok (py_sum (all_outputs
                  (filter (fun s => str_in (site_name s) chosen)
                          (zip_sites (DiffChoiceRoute._edges route) inputs))))
  /\ DiffChoiceRoute.forward_fixed route' [] = Ok tzero.
Proof.
  intros Hfix Hd route'. subst route'.
  unfold DiffChoiceRoute.fix_chosen, DiffChoiceRoute.is_fixed in *.
  simpl. rewrite Hfix. simpl.
  unfold DiffChoiceRoute.forward_fixed. simpl.
  rewrite DiffChoiceRoute_prune.
  unfold DiffChoiceRoute.choices in *.
  split.
  - rewrite (forward_fixed_loop (DiffChoiceRoute._edges route) chosen Hd
               (DiffChoiceRoute._edges route) inputs (incl_refl _)).
    reflexivity.
  - rewrite combine_nil. reflexivity.
Qed.

Lemma route_fix_then_forward_fixed_witness :
  DiffChoiceRoute.forward_fixed
    (fst (DiffChoiceRoute.fix_chosen route3 ["first_edge"; "third_edge"]))
    [Q2Qc 1; Q2Qc 2; Q2Qc 3]
  = Ok (Q2Qc 11).
Proof.
  destruct (route_fix_then_forward_fixed Qc QcTensor route3
              ["first_edge"; "third_edge"] [Q2Qc 1; Q2Qc 2; Q2Qc 3])
    as [H1 _].
  - reflexivity.
  - repeat constructor; simpl; intuition discriminate.
  - rewrite H1. reflexivity.
Defined.

Section RouteRefixFacts.
Context {T : Type} `{TensorOps T}.

Lemma filter_idempotent (A : Type) (p : A -> bool) (l : list A) :
  filter p (filter p l) = filter p l.
Proof.
  rewrite filter_twice. apply filter_ext. intro a. destruct (p a); reflexivity.
Qed.

Lemma filter_sites_all (p : string -> bool) (d : ModuleDict T) :
  (forall kv, In kv d -> p (fst kv) = true) ->
  forall xs : list T,
    filter (fun s : site T => p (site_name s)) (zip_sites d xs)
    = zip_sites d xs.
Proof.
  unfold zip_sites.
  induction d as [|kv d IH]; intros Hp [|x xs]; simpl; try reflexivity.
  unfold site_name at 1. simpl.
  rewrite (Hp kv (or_introl eq_refl)).
  rewrite IH; [reflexivity|]. intros kv' Hin. apply Hp. right. exact Hin.
Qed.

End RouteRefixFacts.

(** X2. A second [fix_chosen] on a route raises, but only after it has
    overwritten [_unfixed_choices] with the names of the retained edges.
    From then on [forward_fixed] gives the i-th retained edge the i-th
    input, no longer the input at the edge's original position. *)
Theorem route_failed_refix_realigns_inputs
    (T : Type) (ops : TensorOps T) (route : DiffChoiceRoute.t (T := T))
    (chosen again : list string) (inputs : list T) :
  DiffChoiceRoute.is_fixed route = false ->
  NoDup (DiffChoiceRoute.choices route) ->
  let fixed := fst (DiffChoiceRoute.fix_chosen route chosen) in
  let after := fst (DiffChoiceRoute.fix_chosen fixed again) in
  snd (DiffChoiceRoute.fix_chosen fixed again) = Raise AttributeError /\
  DiffChoiceRoute._unfixed_choices fixed
    = Some (DiffChoiceRoute.choices route) /\
  DiffChoiceRoute._unfixed_choices after
    = Some (DiffChoiceRoute.choices fixed) /\
  DiffChoiceRoute.forward_fixed after inputs =
    Ok (py_sum (all_outputs
                  (zip_sites (DiffChoiceRoute._edges fixed) inputs))).
Proof.
  intros Hfix Hd fixed after. subst fixed after.
  unfold DiffChoiceRoute.fix_chosen, DiffChoiceRoute.is_fixed in *.
  simpl. rewrite Hfix. simpl.
  unfold DiffChoiceRoute.choices in *. simpl.
  repeat (split; [reflexivity|]).
  unfold DiffChoiceRoute.forward_fixed. simpl.
  rewrite DiffChoiceRoute_prune.
  set (d1 := filter (fun kv => str_in (fst kv) chosen)
                    (DiffChoiceRoute._edges route)).
  assert (Hd1 : NoDup (keys d1))
    by (apply (keys_filter_unique (fun k => str_in k chosen)); exact Hd).
  assert (Hid : d1 = filter (fun kv => str_in (fst kv) chosen) d1)
    by (unfold d1; rewrite filter_idempotent; reflexivity).
  pose proof (forward_fixed_loop d1 chosen Hd1 d1 inputs (incl_refl _))
    as Hloop.
  rewrite <- Hid in Hloop. rewrite Hloop.
  rewrite (filter_sites_all (fun k => str_in k chosen)); [reflexivity|].
  intros kv Hin. unfold d1 in Hin. apply filter_In in Hin. tauto.
Qed.

Lemma route_failed_refix_realigns_inputs_witness :
  let fixed :=
    fst (DiffChoiceRoute.fix_chosen route3 ["first_edge"; "third_edge"]) in
  let after := fst (DiffChoiceRoute.fix_chosen fixed ["first_edge"]) in
  DiffChoiceRoute.forward_fixed fixed [Q2Qc 1; Q2Qc 2; Q2Qc 3] = Ok (Q2Qc 11) /\
  DiffChoiceRoute.forward_fixed after [Q2Qc 1; Q2Qc 2; Q2Qc 3] = Ok (Q2Qc 6).
Proof.
  intros fixed after.
  destruct (route_failed_refix_realigns_inputs Qc QcTensor route3
              ["first_edge"; "third_edge"] ["first_edge"]
              [Q2Qc 1; Q2Qc 2; Q2Qc 3])
    as (_ & _ & _ & H4).
  - reflexivity.
  - repeat constructor; simpl; intuition discriminate.
  - split; [reflexivity|]. subst after fixed. rewrite H4. reflexivity.
Defined.

(** ** What [fix_chosen] leaves behind *)

(** X3. Whatever [chosen] is and whether or not the call raises, after
    [fix_chosen] the mutable is fixed, every candidate left was a candidate
    before, and names stay unique; a [DiffOP] that was unfixed is left with
    at most one candidate. *)
Theorem fix_chosen_only_prunes
    (T : Type) (op : DiffOP.t (T := T)) (route : DiffChoiceRoute.t (T := T))
    (chosen : pychosen) (chosen_edges : list string) :
  NoDup (DiffOP.choices op) ->
  NoDup (DiffChoiceRoute.choices route) ->
  let op' := fst (DiffOP.fix_chosen op chosen) in
  let route' := fst (DiffChoiceRoute.fix_chosen route chosen_edges) in
  (DiffOP.is_fixed op' = true /\
   incl (DiffOP._candidate_ops op') (DiffOP._candidate_ops op) /\
   NoDup (DiffOP.choices op') /\
   (DiffOP.is_fixed op = false ->
    (List.length (DiffOP._candidate_ops op') <= 1)%nat)) /\
  (DiffChoiceRoute.is_fixed route' = true /\
   incl (DiffChoiceRoute._edges route') (DiffChoiceRoute._edges route) /\
   NoDup (DiffChoiceRoute.choices route')).
Proof.
  intros Hop Hroute op' route'. subst op' route'.
  unfold DiffOP.fix_chosen, DiffChoiceRoute.fix_chosen.
  unfold DiffOP.choices, DiffChoiceRoute.choices in *.
  unfold DiffOP.is_fixed, DiffChoiceRoute.is_fixed. simpl.
  split.
  - destruct (DiffOP._is_fixed op) eqn:Hfix; simpl.
    + split; [exact Hfix|]. split; [apply incl_refl|].
      split; [exact Hop | discriminate].
    + split; [reflexivity|].
      destruct chosen as [c | l].
      * rewrite DiffOP_prune_str.
        split; [apply incl_filter|]. split.
        -- apply (keys_filter_unique (fun k => String.eqb k c)). exact Hop.
        -- intros _. apply filter_key_at_most_one. exact Hop.
      * rewrite DiffOP_prune_list.
        split; [intros kv []|]. split; [constructor|].
        intros _. simpl. lia.
  - destruct (DiffChoiceRoute._is_fixed route) eqn:Hfix; simpl.
    + split; [reflexivity|]. split; [apply incl_refl | exact Hroute].
    + split; [reflexivity|].
      rewrite DiffChoiceRoute_prune.
      split; [apply incl_filter|].
      apply (keys_filter_unique (fun k => str_in k chosen_edges)).
      exact Hroute.
Qed.

Lemma fix_chosen_only_prunes_witness :
  (List.length (DiffOP._candidate_ops
                  (fst (DiffOP.fix_chosen diffop3 (ChosenStr "candidate3"))))
   <= 1)%nat /\
  NoDup (DiffChoiceRoute.choices
           (fst (DiffChoiceRoute.fix_chosen route3 ["third_edge"; "nowhere"]))).
Proof.
  destruct (fix_chosen_only_prunes Qc diffop3 route3 (ChosenStr "candidate3")
              ["third_edge"; "nowhere"])
    as ((_ & _ & _ & H1) & (_ & _ & H2)).
  - repeat constructor; simpl; intuition discriminate.
  - repeat constructor; simpl; intuition discriminate.
  - split; [apply H1; reflexivity | exact H2].
Defined.

Section FixOnOtherNames.
Context {T : Type} `{TensorOps T}.

Lemma filter_key_absent (d : ModuleDict T) (c : string) :
  ~ In c (keys d) -> filter (fun kv => String.eqb (fst kv) c) d = [].
Proof.
  unfold keys. induction d as [|kv d IH]; intro Hc; simpl; [reflexivity|].
  destruct (String.eqb (fst kv) c) eqn:Heq.
  - apply String.eqb_eq in Heq. exfalso. apply Hc. left. exact Heq.
  - apply IH. intro Hin. apply Hc. right. exact Hin.
Qed.

Lemma getitem_filter_same (d : ModuleDict T) (c : string) :
  getitem (filter (fun kv => String.eqb (fst kv) c) d) c = getitem d c.
Proof.
  unfold getitem. induction d as [|kv d IH]; simpl; [reflexivity|].
  destruct (String.eqb (fst kv) c) eqn:Heq; simpl.
  - rewrite Heq. reflexivity.
  - exact IH.
Qed.

End FixOnOtherNames.

(** X4. [DiffOP.fix_chosen] does not check that [chosen] names a
    candidate: on an unfixed mutable, a name that is no choice is accepted,
    every candidate is removed, and the later forward raises [KeyError]
    (for the empty name it returns the integer 0). *)
Theorem fix_chosen_on_unknown_name
    (T : Type) (ops : TensorOps T) (normalize : list Q -> list Q)
    (op : DiffOP.t (T := T)) (c : string) (x : T)
    (arch_param : option (list Q)) :
  DiffOP.is_fixed op = false ->
  ~ In c (DiffOP.choices op) ->
  let op' := fst (DiffOP.fix_chosen op (ChosenStr c)) in
  snd (DiffOP.fix_chosen op (ChosenStr c)) = Ok tt /\
  DiffOP.is_fixed op' = true /\
  DiffOP._candidate_ops op' = [] /\
  DiffOP.forward normalize op' x arch_param =
    match c with
    | EmptyString => Ok tzero
    | String _ _ => Raise KeyError
    end.
Proof.
  intros Hfix Hc op'. subst op'.
  unfold DiffOP.fix_chosen. rewrite Hfix. simpl.
  unfold DiffOP.forward, DiffOP.forward_fixed, DiffOP.choices in *. simpl.
  rewrite DiffOP_prune_str, (filter_key_absent _ c Hc).
  repeat (split; [reflexivity|]).
  destruct c as [|a rest]; reflexivity.
Qed.

Lemma fix_chosen_on_unknown_name_witness :
  DiffOP.forward softmax_of_weights
    (fst (DiffOP.fix_chosen diffop3 (ChosenStr "candidate4")))
    (Q2Qc 1) None = Raise KeyError.
Proof.
  destruct (fix_chosen_on_unknown_name Qc QcTensor softmax_of_weights diffop3
              "candidate4" (Q2Qc 1) None) as (_ & _ & _ & H4).
  - reflexivity.
  - simpl. intuition discriminate.
  - exact H4.
Defined.

(** X5. Fixing an unfixed [DiffOP] on a candidate whose name is a single
    character works: whatever [arch_param] is, the later forward returns
    [0 + op(x)] for that candidate [op]. *)
Theorem forward_after_fix_on_one_letter_name
    (T : Type) (ops : TensorOps T) (normalize : list Q -> list Q)
    (op : DiffOP.t (T := T)) (a : ascii) (m : T -> T) (x : T)
    (arch_param : option (list Q)) :
  DiffOP.is_fixed op = false ->
  getitem (DiffOP._candidate_ops op) (String a EmptyString) = Ok m ->
  DiffOP.forward normalize
    (fst (DiffOP.fix_chosen op (ChosenStr (String a EmptyString))))
    x arch_param
  = Ok (tadd tzero (m x)).
Proof.
  intros Hfix Hm.
  unfold DiffOP.fix_chosen. rewrite Hfix. simpl.
  unfold DiffOP.forward, DiffOP.forward_fixed. simpl.
  rewrite DiffOP_prune_str, getitem_filter_same, Hm. reflexivity.
Qed.

Lemma forward_after_fix_on_one_letter_name_witness :
  DiffOP.forward softmax_of_weights
    (fst (DiffOP.fix_chosen (DiffOP.mk false two_candidates Absent)
            (ChosenStr "b")))
    (Q2Qc 2) (Some [1; 1])
  = Ok (tadd tzero (Qcmult (Q2Qc 5) (Q2Qc 2))).
Proof.
  apply (forward_after_fix_on_one_letter_name Qc QcTensor softmax_of_weights
           (DiffOP.mk false two_candidates Absent) "b"%char
           (fun v => Qcmult (Q2Qc 5) v) (Q2Qc 2) (Some [1; 1]));
    reflexivity.
Defined.

(** Witnesses of the two failures after a fix (names of two letters or
    more, and a list). *)
Lemma forward_after_fix_on_long_name_witness :
  DiffOP.forward softmax_of_weights
    (fst (DiffOP.fix_chosen diffop3 (ChosenStr "candidate2")))
    (Q2Qc 1) (Some [1; 1; 1]) = Raise KeyError.
Proof.
  apply (forward_after_fix_on_long_name softmax_of_weights diffop3
           "candidate2" (Q2Qc 1) (Some [1; 1; 1])).
  - reflexivity.
  - simpl. lia.
Defined.

Lemma forward_after_fix_on_list_witness :
  DiffOP._candidate_ops
    (fst (DiffOP.fix_chosen diffop3
            (ChosenList ["candidate1"; "candidate2"]))) = [] /\
  DiffOP.forward softmax_of_weights
    (fst (DiffOP.fix_chosen diffop3
            (ChosenList ["candidate1"; "candidate2"])))
    (Q2Qc 1) None = Raise KeyError.
Proof.
  apply (forward_after_fix_on_list softmax_of_weights diffop3
           "candidate1" ["candidate2"] (Q2Qc 1) None).
  reflexivity.
Defined.

(** ** [DynaDiffOP]: when it fixes and when it does not *)

Section DynaFacts.
Context {T : Type} `{TensorOps T}.
Variable normalize : list Q -> list Q.

Lemma filter_key_unique_entry (d : ModuleDict T) (c : string) (m : T -> T) :
  NoDup (keys d) -> In (c, m) d ->
  filter (fun kv => String.eqb (fst kv) c) d = [(c, m)].
Proof.
  unfold keys. induction d as [|kv d IH]; intros Hd Hin; simpl in *;
    [contradiction|].
  inversion Hd as [|? ? Hnotin Hd']; subst.
  destruct (String.eqb (fst kv) c) eqn:Heq.
  - apply String.eqb_eq in Heq.
    assert (Hkv : kv = (c, m)).
    { destruct Hin as [Hkv | Hin]; [exact Hkv|].
      exfalso. apply Hnotin. rewrite Heq.
      change c with (fst (c, m)). apply in_map. exact Hin. }
    rewrite Hkv. f_equal. apply filter_key_absent.
    rewrite <- Heq. exact Hnotin.
  - destruct Hin as [Hkv | Hin].
    + subst kv. simpl in Heq. rewrite String.eqb_refl in Heq. discriminate.
    + apply IH; assumption.
Qed.

(** The object after a forward is the one before, or the one before fixed
    on one of its names by [fix_chosen]. *)
Lemma dyna_forward_state
    (dyna : DynaDiffOP.t (T := T)) (x : T) (arch_param : option (list Q)) :
  fst (DynaDiffOP.forward normalize dyna x arch_param) = dyna \/
  (DynaDiffOP.is_fixed dyna = false /\
   exists c, fst (DynaDiffOP.forward normalize dyna x arch_param)
             = fst (DynaDiffOP.fix_chosen dyna (ChosenStr c))).
Proof.
  unfold DynaDiffOP.forward.
  destruct (DynaDiffOP.is_fixed dyna) eqn:Hfix; [left; reflexivity|].
  unfold DynaDiffOP.forward_arch_param.
  destruct arch_param as [a|]; [|left; reflexivity].
  simpl. rewrite Hfix. simpl.
  destruct (topk2 (normalize a)) as [top|e]; [|left; reflexivity].
  destruct (Qle_bool _ _); [|left; reflexivity].
  cbv beta iota delta [bool_index].
  destruct (nth_error (DynaDiffOP.choices dyna) 1) as [c|];
    [|left; reflexivity].
  right. split; [reflexivity|]. exists c.
  destruct (DynaDiffOP.fix_chosen dyna (ChosenStr c)) as [dyna' [u|e]];
    reflexivity.
Qed.

End DynaFacts.

(** X7. While the gap between the two largest probabilities stays below
    [dyna_thresh], an unfixed [DynaDiffOP] is left unchanged by a forward
    and returns what [DiffOP] returns: the weighted mixture over all its
    candidates. *)
Theorem dyna_below_threshold_is_diffop
    (T : Type) (ops : TensorOps T) (normalize : list Q -> list Q)
    (dyna : DynaDiffOP.t (T := T)) (x : T) (a : list Q) (top : Q * Q) :
  DynaDiffOP.is_fixed dyna = false ->
  topk2 (normalize a) = Ok top ->
  Qle_bool (DynaDiffOP.dyna_thresh dyna) (fst top - snd top) = false ->
  DynaDiffOP.forward normalize dyna x (Some a)
  = (dyna, DiffOP.forward normalize (DynaDiffOP.base dyna) x (Some a)).
Proof.
  intros Hfix Htop Hgap.
  unfold DynaDiffOP.forward, DiffOP.forward. rewrite Hfix.
  unfold DynaDiffOP.is_fixed in Hfix. rewrite Hfix.
  unfold DynaDiffOP.forward_arch_param, DynaDiffOP.is_fixed. simpl.
  rewrite Hfix. simpl. rewrite Htop. simpl. rewrite Hgap. reflexivity.
Qed.

Lemma dyna_below_threshold_is_diffop_witness :
  DynaDiffOP.forward softmax_of_weights dyna2 (Q2Qc 1) (Some [3; 2])
  = (dyna2, DiffOP.forward softmax_of_weights (DynaDiffOP.base dyna2)
              (Q2Qc 1) (Some [3; 2])).
Proof.
  apply (dyna_below_threshold_is_diffop Qc QcTensor softmax_of_weights dyna2
           (Q2Qc 1) [3; 2] (Qdiv 3 (qsum [3; 2]), Qdiv 2 (qsum [3; 2])));
    reflexivity.
Defined.

(** X8. [torch.topk(probs, 2)] needs two probabilities: an unfixed
    [DynaDiffOP] given fewer than two, as one with a single candidate is,
    raises on every forward with an architecture parameter and stays as it
    was. *)
Theorem dyna_needs_two_probabilities
    (T : Type) (ops : TensorOps T) (normalize : list Q -> list Q)
    (dyna : DynaDiffOP.t (T := T)) (x : T) (a : list Q) :
  DynaDiffOP.is_fixed dyna = false ->
  (List.length (normalize a) < 2)%nat ->
  DynaDiffOP.forward normalize dyna x (Some a) = (dyna, Raise RuntimeError).
Proof.
  intros Hfix Hlen.
  unfold DynaDiffOP.forward. rewrite Hfix.
  unfold DynaDiffOP.forward_arch_param. simpl. rewrite Hfix. simpl.
  destruct (normalize a) as [|p0 [|p1 rest]]; simpl in *;
    try reflexivity; lia.
Qed.

Lemma dyna_needs_two_probabilities_witness :
  exists dyna,
    DynaDiffOP.init ChosenMissing
      [("only", fun v : Qc => v)] (3 # 10) = Ok dyna /\
    DynaDiffOP.forward softmax_of_weights dyna (Q2Qc 1) (Some [1])
    = (dyna, Raise RuntimeError).
Proof.
  eexists. split; [reflexivity|].
  apply (dyna_needs_two_probabilities Qc QcTensor softmax_of_weights).
  - reflexivity.
  - simpl. lia.
Defined.

(** X9. When the gap reaches the threshold, an unfixed [DynaDiffOP] (unique
    names) keeps only its second candidate [(c, op)], records [c] as chosen,
    and that same call returns the mixture over what is left: the first
    probability times [op(x)] (the integer 0 when the first probability is
    not positive). *)
Theorem dyna_fix_keeps_second_candidate
    (T : Type) (ops : TensorOps T) (normalize : list Q -> list Q)
    (dyna : DynaDiffOP.t (T := T)) (x : T) (a : list Q) (top : Q * Q)
    (c : string) (m : T -> T) :
  DynaDiffOP.is_fixed dyna = false ->
  NoDup (DynaDiffOP.choices dyna) ->
  topk2 (normalize a) = Ok top ->
  Qle_bool (DynaDiffOP.dyna_thresh dyna) (fst top - snd top) = true ->
  nth_error (DynaDiffOP._candidate_ops dyna) 1 = Some (c, m) ->
  let r := DynaDiffOP.forward normalize dyna x (Some a) in
  DynaDiffOP.is_fixed (fst r) = true /\
  DynaDiffOP._chosen (fst r) = Bound (ChosenStr c) /\
  DynaDiffOP._candidate_ops (fst r) = [(c, m)] /\
  snd r = Ok (if prob_pos (hd 0 (normalize a))
              then tadd tzero (tscale (hd 0 (normalize a)) (m x))
              else tzero).
Proof.
  intros Hfix Hd Htop Hgap Hc r. subst r.
  assert (Hname : nth_error (DynaDiffOP.choices dyna) 1 = Some c).
  { unfold DynaDiffOP.choices, DiffOP.choices, keys.
    unfold DynaDiffOP._candidate_ops in Hc.
    rewrite nth_error_map, Hc. reflexivity. }
  assert (Hkeep : filter (fun kv => String.eqb (fst kv) c)
                         (DynaDiffOP._candidate_ops dyna) = [(c, m)]).
  { apply filter_key_unique_entry; [exact Hd|].
    apply (nth_error_In _ 1). exact Hc. }
  unfold DynaDiffOP.forward. rewrite Hfix.
  unfold DynaDiffOP.forward_arch_param. simpl.
  rewrite Hfix. cbv beta iota delta [negb compute_arch_probs].
  rewrite Htop. cbv beta iota. rewrite Hgap.
  cbv beta iota delta [bool_index]. rewrite Hname.
  unfold DynaDiffOP.fix_chosen, DiffOP.fix_chosen.
  unfold DynaDiffOP.is_fixed in Hfix. rewrite Hfix.
  unfold DynaDiffOP.mixture, DynaDiffOP._candidate_ops in *. simpl.
  rewrite DiffOP_prune_str, Hkeep.
  repeat (split; [reflexivity|]).
  destruct (normalize a) as [|p0 rest]; [discriminate Htop|].
  unfold mixture_outputs, mixture_sites, py_sum. simpl.
  rewrite combine_nil.
  destruct (prob_pos p0); reflexivity.
Qed.

Lemma dyna_fix_keeps_second_candidate_witness :
  let r := DynaDiffOP.forward softmax_of_weights dyna2 (Q2Qc 1)
             (Some [9; 1]) in
  DynaDiffOP.choices (fst r) = ["b"] /\
  snd r = Ok (Q2Qc (9 # 2)).
Proof.
  destruct (dyna_fix_keeps_second_candidate Qc QcTensor softmax_of_weights
              dyna2 (Q2Qc 1) [9; 1]
              (Qdiv 9 (qsum [9; 1]), Qdiv 1 (qsum [9; 1]))
              "b" (fun v => Qcmult (Q2Qc 5) v))
    as (_ & _ & H3 & H4).
  - reflexivity.
  - repeat constructor; simpl; intuition discriminate.
  - reflexivity.
  - reflexivity.
  - reflexivity.
  - split.
    + unfold DynaDiffOP.choices, DiffOP.choices.
      unfold DynaDiffOP._candidate_ops in H3. rewrite H3. reflexivity.
    + rewrite H4. reflexivity.
Defined.

(** X10. One forward of a [DynaDiffOP] never unfixes it, never adds or
    renames a candidate and never changes the threshold: a fixed mutable
    comes out identical, an unfixed one comes out identical or fixed, and
    the candidates after the call are among those before, with names still
    unique. *)
Theorem dyna_forward_is_a_ratchet
    (T : Type) (ops : TensorOps T) (normalize : list Q -> list Q)
    (dyna : DynaDiffOP.t (T := T)) (x : T) (arch_param : option (list Q)) :
  NoDup (DynaDiffOP.choices dyna) ->
  let dyna' := fst (DynaDiffOP.forward normalize dyna x arch_param) in
  (DynaDiffOP.is_fixed dyna = true -> dyna' = dyna) /\
  (dyna' = dyna \/ DynaDiffOP.is_fixed dyna' = true) /\
  incl (DynaDiffOP._candidate_ops dyna') (DynaDiffOP._candidate_ops dyna) /\
  NoDup (DynaDiffOP.choices dyna') /\
  DynaDiffOP.dyna_thresh dyna' = DynaDiffOP.dyna_thresh dyna.
Proof.
  intros Hd dyna'. subst dyna'.
  destruct (dyna_forward_state normalize dyna x arch_param)
    as [Hsame | (Hfix & c & Hc)].
  - rewrite Hsame.
    split; [reflexivity|]. split; [left; reflexivity|].
    split; [apply incl_refl|]. split; [exact Hd | reflexivity].
  - rewrite Hc.
    unfold DynaDiffOP.fix_chosen, DiffOP.fix_chosen.
    unfold DynaDiffOP.is_fixed in *. rewrite Hfix.
    unfold DynaDiffOP.choices, DynaDiffOP._candidate_ops, DiffOP.choices in *.
    simpl. rewrite DiffOP_prune_str.
    split; [discriminate|]. split; [right; reflexivity|].
    split; [apply incl_filter|]. split; [|reflexivity].
    apply (keys_filter_unique (fun k => String.eqb k c)). exact Hd.
Qed.

Lemma dyna_forward_is_a_ratchet_witness :
  let dyna' := fst (DynaDiffOP.forward softmax_of_weights dyna2 (Q2Qc 1)
                      (Some [9; 1])) in
  incl (DynaDiffOP._candidate_ops dyna') (DynaDiffOP._candidate_ops dyna2) /\
  NoDup (DynaDiffOP.choices dyna').
Proof.
  destruct (dyna_forward_is_a_ratchet Qc QcTensor softmax_of_weights dyna2
              (Q2Qc 1) (Some [9; 1])) as (_ & _ & H3 & H4 & _).
  - repeat constructor; simpl; intuition discriminate.
  - split; [exact H3 | exact H4].
Defined.

(** ** [sample_choice] *)

Lemma argmax_from_greatest (rest : list Q) :
  forall (pre : list Q) (best : Q) (besti : nat),
    nth_error pre besti = Some best ->
    (forall q, In q pre -> q <= best) ->
    exists v,
      nth_error (pre ++ rest)
                (DiffOP.argmax_from best besti (List.length pre) rest) = Some v /\
      forall q, In q (pre ++ rest) -> q <= v.
Proof.
  induction rest as [|p rest IH]; intros pre best besti Hbest Hle; simpl.
  - exists best. rewrite app_nil_r. split; assumption.
  - assert (Hlen : List.length (pre ++ [p]) = S (List.length pre))
      by (rewrite length_app; simpl; lia).
    assert (Happ : (pre ++ [p]) ++ rest = pre ++ p :: rest)
      by (rewrite <- app_assoc; reflexivity).
    destruct (Qle_bool p best) eqn:Hp.
    + apply Qle_bool_iff in Hp.
      destruct (IH (pre ++ [p]) best besti) as (v & Hv & Hmax).
      * rewrite nth_error_app1; [exact Hbest|].
        apply nth_error_Some. rewrite Hbest. discriminate.
      * intros q Hq. apply in_app_or in Hq.
        destruct Hq as [Hq | [Hq | []]]; [apply Hle; exact Hq|].
        subst q. exact Hp.
      * rewrite Hlen, Happ in Hv. rewrite Happ in Hmax.
        exists v. split; assumption.
    + assert (Hlt : best < p).
      { apply Qnot_le_lt. intro Hc. apply Qle_bool_iff in Hc. congruence. }
      destruct (IH (pre ++ [p]) p (List.length pre)) as (v & Hv & Hmax).
      * rewrite nth_error_app2, Nat.sub_diag; [reflexivity | lia].
      * intros q Hq. apply in_app_or in Hq.
        destruct Hq as [Hq | [Hq | []]].
        -- apply Qle_trans with best; [apply Hle; exact Hq|].
           apply Qlt_le_weak. exact Hlt.
        -- subst q. apply Qle_refl.
      * rewrite Hlen, Happ in Hv. rewrite Happ in Hmax.
        exists v. split; assumption.
Qed.

(** X11. Given one architecture parameter per candidate (the normaliser
    keeps the length), [sample_choice] returns the name of a candidate whose
    probability is the largest: no probability exceeds the one at the
    position of the returned name. *)
Theorem sample_choice_returns_most_probable
    (T : Type) (normalize : list Q -> list Q) (op : DiffOP.t (T := T))
    (a : list Q) :
  List.length (normalize a) = List.length (DiffOP.choices op) ->
  (1 <= List.length (DiffOP.choices op))%nat ->
  exists (i : nat) (c : string) (v : Q),
    DiffOP.sample_choice normalize op a = Ok c /\
    nth_error (DiffOP.choices op) i = Some c /\
    nth_error (normalize a) i = Some v /\
    forall q, In q (normalize a) -> q <= v.
Proof.
  intros Hlen Hpos. unfold DiffOP.sample_choice, DiffOP.argmax.
  destruct (normalize a) as [|p rest] eqn:Hn; [simpl in Hlen; lia|].
  destruct (argmax_from_greatest rest [p] p 0) as (v & Hv & Hmax).
  - reflexivity.
  - intros q [Hq | []]. subst q. apply Qle_refl.
  - simpl app in Hv, Hmax. simpl List.length in Hv.
    set (i := DiffOP.argmax_from p 0 1 rest) in *.
    assert (Hi : (i < List.length (DiffOP.choices op))%nat).
    { rewrite <- Hlen. apply nth_error_Some. rewrite Hv. discriminate. }
    destruct (nth_error (DiffOP.choices op) i) as [c|] eqn:Hc.
    + exists i, c, v. simpl. rewrite Hc. repeat split; assumption.
    + apply nth_error_Some in Hi. contradiction.
Qed.

Lemma sample_choice_returns_most_probable_witness :
  exists (i : nat) (c : string) (v : Q),
    DiffOP.sample_choice softmax_of_weights diffop3 [1; 5; 2] = Ok c /\
    nth_error (DiffOP.choices diffop3) i = Some c /\
    nth_error (softmax_of_weights [1; 5; 2]) i = Some v /\
    forall q, In q (softmax_of_weights [1; 5; 2]) -> q <= v.
Proof.
  apply (sample_choice_returns_most_probable Qc softmax_of_weights diffop3
           [1; 5; 2]).
  - reflexivity.
  - simpl. lia.
Defined.

(** ** A mixture with a single positive probability *)

Section SinglePathFacts.
Context {T : Type} `{TensorOps T}.

Lemma mixture_sites_none (probs : list Q) :
  Forall (fun q => prob_pos q = false) probs ->
  forall sites : list (site T), mixture_sites probs sites = [].
Proof.
  unfold mixture_sites.
  induction 1 as [|q probs Hq _ IH]; intros [|s sites]; simpl;
    try reflexivity.
  rewrite Hq. apply IH.
Qed.

Lemma mixture_sites_single (pre post : list Q) (p : Q) :
  Forall (fun q => prob_pos q = false) pre ->
  Forall (fun q => prob_pos q = false) post ->
  prob_pos p = true ->
  forall (sites : list (site T)) (s : site T),
    nth_error sites (List.length pre) = Some s ->
    mixture_sites (pre ++ p :: post) sites = [(p, s)].
Proof.
  intros Hpre Hpost Hp.
  induction Hpre as [|q pre Hq _ IH]; intros [|s0 sites] s Hs;
    simpl in Hs; try discriminate.
  - injection Hs as Hs. subst s0. unfold mixture_sites. simpl. rewrite Hp.
    f_equal. apply (mixture_sites_none post Hpost).
  - unfold mixture_sites in *. simpl. rewrite Hq. apply IH. exact Hs.
Qed.

Lemma nth_error_zip_sites (d : ModuleDict T) :
  forall (xs : list T) (i : nat) (kv : string * (T -> T)) (x : T),
    nth_error d i = Some kv -> nth_error xs i = Some x ->
    nth_error (zip_sites d xs) i = Some (kv, x).
Proof.
  unfold zip_sites.
  induction d as [|kv0 d IH]; intros [|x0 xs] [|i] kv x Hd Hx;
    simpl in *; try discriminate.
  - injection Hd as Hd. injection Hx as Hx. subst. reflexivity.
  - apply IH; assumption.
Qed.

End SinglePathFacts.

(** X12. When exactly one computed probability is positive (a hard,
    one-hot Gumbel sample), the weighted forward of a route built with
    [with_arch_param=True] calls one module only, the edge at that position
    on the input at that position, and returns that probability times its
    output. *)
Theorem route_single_positive_probability
    (T : Type) (ops : TensorOps T) (normalize : list Q -> list Q)
    (route : DiffChoiceRoute.t (T := T)) (xs : list T) (a : list Q)
    (pre post : list Q) (p : Q) (k : string) (m : T -> T) (x : T) :
  DiffChoiceRoute._with_arch_param route = true ->
  List.length xs = List.length (DiffChoiceRoute._edges route) ->
  normalize a = pre ++ p :: post ->
  Forall (fun q => prob_pos q = false) pre ->
  Forall (fun q => prob_pos q = false) post ->
  prob_pos p = true ->
  nth_error (DiffChoiceRoute._edges route) (List.length pre) = Some (k, m) ->
  nth_error xs (List.length pre) = Some x ->
  DiffChoiceRoute.forward_arch_param_traced normalize route xs (Some a)
  = Ok ([(k, x)], tadd tzero (tscale p (m x))).
Proof.
  intros Hw Hlen Hn Hpre Hpost Hp Hk Hx.
  unfold DiffChoiceRoute.forward_arch_param_traced.
  apply Nat.eqb_eq in Hlen. rewrite Hlen, Hw. simpl. rewrite Hn.
  unfold mixture_outputs.
  rewrite (mixture_sites_single pre post p Hpre Hpost Hp
             (zip_sites (DiffChoiceRoute._edges route) xs) ((k, m), x)
             (nth_error_zip_sites _ _ _ _ _ Hk Hx)).
  reflexivity.
Qed.

Lemma route_single_positive_probability_witness :
  DiffChoiceRoute.forward_arch_param_traced hard_one_hot route2_with_param
    [Q2Qc 1; Q2Qc 2] (Some [1; 3])
  = Ok ([("second_edge", Q2Qc 2)],
        tadd tzero (tscale 1 (Qcplus (Q2Qc 2) (Q2Qc 1)))).
Proof.
  apply (route_single_positive_probability Qc QcTensor hard_one_hot
           route2_with_param [Q2Qc 1; Q2Qc 2] [1; 3] [0] [] 1
           "second_edge" (fun v => Qcplus v (Q2Qc 1)) (Q2Qc 2));
    try reflexivity.
  - repeat constructor.
  - constructor.
Defined.

(** * Further properties of the evaluator *)

Module LoadFacts.
Import ZeroCostPredictorEvaluator.

Lemma budget_stop (size : Z) (i : nat) :
  (size <=? Z.of_nat i)%Z = true -> budget size i = 0%nat.
Proof. unfold budget. intro Hs. apply Z.leb_le in Hs. lia. Qed.

Lemma budget_step (size : Z) (i : nat) :
  (size <=? Z.of_nat i)%Z = false ->
  budget size i = S (budget size (S i)).
Proof. unfold budget. intro Hs. apply Z.leb_gt in Hs. lia. Qed.

Lemma load_loop_prefix (A Y : Type) (size : Z) (data : list (entry A Y)) :
  forall i : nat,
    load_loop i size data = load_loop i size (firstn (budget size i) data).
Proof.
  induction data as [|x data IH]; intro i; simpl.
  - rewrite firstn_nil. reflexivity.
  - destruct (size <=? Z.of_nat i)%Z eqn:Hs.
    + rewrite (budget_stop size i Hs). reflexivity.
    + rewrite (budget_step size i Hs). simpl. rewrite Hs.
      rewrite <- IH. reflexivity.
Qed.

Lemma load_loop_well_formed (A Y : Type) (size : Z)
    (data : list (entry A Y)) :
  forall i : nat,
    Forall well_formed (firstn (budget size i) data) ->
    exists xs ys,
      load_loop i size data = Ok (xs, ys) /\
      map Some xs = map entry_arch (firstn (budget size i) data) /\
      map Some ys = map entry_accuracy (firstn (budget size i) data).
Proof.
  induction data as [|x data IH]; intros i Hwf; simpl.
  - exists [], []. rewrite firstn_nil. repeat split; reflexivity.
  - destruct (size <=? Z.of_nat i)%Z eqn:Hs.
    + exists [], []. rewrite (budget_stop size i Hs).
      repeat split; reflexivity.
    + rewrite (budget_step size i Hs) in *. simpl in *.
      inversion Hwf as [|? ? [Ha Hy] Hrest]; subst.
      destruct (IH (S i) Hrest) as (xs & ys & Hload & Hxs & Hys).
      destruct (entry_arch x) as [a|] eqn:Hea; [|contradiction].
      destruct (entry_accuracy x) as [y|] eqn:Hey; [|contradiction].
      exists (a :: xs), (y :: ys). simpl. rewrite Hload. simpl.
      rewrite Hxs, Hys. repeat split; reflexivity.
Qed.

Lemma load_loop_missing_key (A Y : Type) (size : Z)
    (data : list (entry A Y)) :
  forall i : nat,
    Exists (fun x => ~ well_formed x) (firstn (budget size i) data) ->
    load_loop i size data = Raise KeyError.
Proof.
  induction data as [|x data IH]; intros i Hbad; simpl.
  - rewrite firstn_nil in Hbad. inversion Hbad.
  - destruct (size <=? Z.of_nat i)%Z eqn:Hs.
    + rewrite (budget_stop size i Hs) in Hbad. inversion Hbad.
    + rewrite (budget_step size i Hs) in Hbad. simpl in Hbad.
      destruct (entry_arch x) as [a|] eqn:Hea; [|reflexivity].
      destruct (entry_accuracy x) as [y|] eqn:Hey; [|reflexivity].
      simpl.
      inversion Hbad as [? ? Hx | ? ? Hrest]; subst.
      * exfalso. apply Hx. unfold well_formed. rewrite Hea, Hey.
        split; discriminate.
      * rewrite (IH (S i) Hrest). reflexivity.
Qed.

End LoadFacts.

(** X13. On a file whose first [size] objects carry both keys,
    [load_dataset_from_file] returns their architectures and their
    accuracies, in file order: two lists of the same length, the smaller of
    [size] and the number of objects (none at all for [size <= 0]). *)
Theorem load_dataset_from_file_reads_prefix
    (A Y : Type) (data : list (ZeroCostPredictorEvaluator.entry A Y))
    (size : Z) :
  Forall ZeroCostPredictorEvaluator.well_formed (firstn (Z.to_nat size) data) ->
  exists xs ys,
    ZeroCostPredictorEvaluator.load_dataset_from_file data size
      = Ok (xs, ys) /\
    map Some xs = map ZeroCostPredictorEvaluator.entry_arch
                      (firstn (Z.to_nat size) data) /\
    map Some ys = map ZeroCostPredictorEvaluator.entry_accuracy
                      (firstn (Z.to_nat size) data) /\
    List.length xs = Nat.min (Z.to_nat size) (List.length data) /\
    List.length ys = Nat.min (Z.to_nat size) (List.length data).
Proof.
  intro Hwf.
  assert (Hb : ZeroCostPredictorEvaluator.budget size 0 = Z.to_nat size)
    by (unfold ZeroCostPredictorEvaluator.budget; f_equal; lia).
  rewrite <- Hb in *.
  destruct (LoadFacts.load_loop_well_formed A Y size data 0%nat Hwf)
    as (xs & ys & Hload & Hxs & Hys).
  exists xs, ys. split; [exact Hload|]. split; [exact Hxs|].
  split; [exact Hys|].
  apply (f_equal (@List.length _)) in Hxs.
  apply (f_equal (@List.length _)) in Hys.
  rewrite !length_map, length_firstn in Hxs, Hys. split; assumption.
Qed.

(** X14. [load_dataset_from_file] raises [KeyError] as soon as one of the
    first [size] objects lacks ['arch'] or ['accuracy']; the objects past
    the first [size] are never looked at, so dropping them changes
    nothing. *)
Theorem load_dataset_from_file_missing_key
    (A Y : Type) (data : list (ZeroCostPredictorEvaluator.entry A Y))
    (size : Z) :
  Exists (fun x => ~ ZeroCostPredictorEvaluator.well_formed x)
         (firstn (Z.to_nat size) data) ->
  ZeroCostPredictorEvaluator.load_dataset_from_file data size
    = Raise KeyError /\
  ZeroCostPredictorEvaluator.load_dataset_from_file
    (firstn (Z.to_nat size) data) size
  = ZeroCostPredictorEvaluator.load_dataset_from_file data size.
Proof.
  intro Hbad.
  assert (Hb : ZeroCostPredictorEvaluator.budget size 0 = Z.to_nat size)
    by (unfold ZeroCostPredictorEvaluator.budget; f_equal; lia).
  unfold ZeroCostPredictorEvaluator.load_dataset_from_file.
  split.
  - apply LoadFacts.load_loop_missing_key. rewrite Hb. exact Hbad.
  - rewrite (LoadFacts.load_loop_prefix A Y size data 0), Hb. reflexivity.
Qed.

Lemma load_dataset_from_file_reads_prefix_witness :
  exists xs ys,
    ZeroCostPredictorEvaluator.load_dataset_from_file labelled_file 2
      = Ok (xs, ys) /\
    map Some xs = [Some "arch_a"; Some "arch_b"] /\
    map Some ys = [Some 90%Z; Some 50%Z].
Proof.
  destruct (load_dataset_from_file_reads_prefix string Z labelled_file 2)
    as (xs & ys & H1 & H2 & H3 & _).
  - simpl. repeat constructor; discriminate.
  - exists xs, ys. repeat split; assumption.
Defined.

Lemma load_dataset_from_file_missing_key_witness :
  ZeroCostPredictorEvaluator.load_dataset_from_file labelled_file 3
  = Raise KeyError.
Proof.
  apply (load_dataset_from_file_missing_key string Z labelled_file 3).
  simpl. apply Exists_cons_tl. apply Exists_cons_tl. apply Exists_cons_hd.
  intros [_ Hacc]. apply Hacc. reflexivity.
Defined.

Module EvaluateFacts.
Import ZeroCostPredictorEvaluator.

Lemma query_missing (zc_api : string -> option score) (xtest : list string) :
  Exists (fun arch => zc_api arch = None) xtest ->
  query zc_api xtest = Raise KeyError.
Proof.
  unfold query.
  induction xtest as [|arch xtest IH]; intro Hex; [inversion Hex|].
  simpl. destruct (zc_api arch) as [pred|] eqn:Harch; [|reflexivity].
  simpl. inversion Hex as [? ? Hhere | ? ? Hlater]; subst; [congruence|].
  rewrite (IH Hlater). reflexivity.
Qed.

(** [single_evaluate] on scores that are numbers. *)
Lemma single_evaluate_scalars
    (Y : Type) (zc_api : string -> option score) (xtest : list string)
    (ytest : list Y) (raw : list pyfloat) :
  map zc_api xtest = map (fun f => Some (Scalar f)) raw ->
  single_evaluate zc_api xtest ytest = Ok (ytest, map clamp_float raw).
Proof.
  intro Hq. unfold single_evaluate.
  rewrite <- (map_map Scalar Some) in Hq.
  rewrite (ZeroCostFacts.query_map _ _ _ Hq).
  rewrite map_map.
  rewrite (map_ext _ _ ZeroCostFacts.clamp_scalar).
  rewrite <- (map_map clamp_float Scalar).
  cbn [bind]. rewrite ZeroCostFacts.np_array_scalars. reflexivity.
Qed.

Lemma scalar_scores_exist (A : Type) (g : A -> option score) (xs : list A) :
  (forall a, In a xs -> exists f, g a = Some (Scalar f)) ->
  exists raw, map g xs = map (fun f => Some (Scalar f)) raw.
Proof.
  induction xs as [|a xs IH]; intro Hall.
  - exists []. reflexivity.
  - destruct (Hall a (or_introl eq_refl)) as [f Hf].
    destruct IH as [raw Hraw];
      [intros a' Ha'; apply Hall; right; exact Ha'|].
    exists (f :: raw). simpl. rewrite Hf, Hraw. reflexivity.
Qed.

End EvaluateFacts.

(** X15. If the benchmark table has no entry for one of the test
    architectures, [single_evaluate] raises [KeyError] and nothing reaches
    the correlation computation, whatever the other scores are. *)
Theorem single_evaluate_missing_architecture
    (Y : Type) (zc_api : string -> option ZeroCostPredictorEvaluator.score)
    (xtest : list string) (ytest : list Y) :
  Exists (fun arch => zc_api arch = None) xtest ->
  ZeroCostPredictorEvaluator.single_evaluate zc_api xtest ytest
  = Raise KeyError.
Proof.
  intro Hex. unfold ZeroCostPredictorEvaluator.single_evaluate.
  rewrite (EvaluateFacts.query_missing zc_api xtest Hex). reflexivity.
Qed.

Lemma single_evaluate_missing_architecture_witness :
  ZeroCostPredictorEvaluator.single_evaluate zc_scalar_table
    ["arch_a"; "arch_z"; "arch_b"] [90; 10; 50]%Z
  = Raise KeyError.
Proof.
  apply (single_evaluate_missing_architecture Z zc_scalar_table
           ["arch_a"; "arch_z"; "arch_b"] [90; 10; 50]%Z).
  apply Exists_cons_tl. apply Exists_cons_hd. reflexivity.
Defined.

(** X16. Only the two infinities are replaced: a score that is NaN is
    handed on to the correlation computation as NaN, and every finite
    score is handed on unchanged. *)
Theorem single_evaluate_keeps_nan_and_finite_scores
    (Y : Type) (zc_api : string -> option ZeroCostPredictorEvaluator.score)
    (xtest : list string) (ytest : list Y)
    (raw : list ZeroCostPredictorEvaluator.pyfloat) (i : nat)
    (f : ZeroCostPredictorEvaluator.pyfloat) :
  map zc_api xtest
    = map (fun f' => Some (ZeroCostPredictorEvaluator.Scalar f')) raw ->
  nth_error raw i = Some f ->
  ZeroCostPredictorEvaluator.is_infinite f = false ->
  exists test_pred,
    ZeroCostPredictorEvaluator.single_evaluate zc_api xtest ytest
      = Ok (ytest, test_pred) /\
    nth_error test_pred i = Some f.
Proof.
  intros Hq Hi Hf.
  exists (map ZeroCostPredictorEvaluator.clamp_float raw).
  split; [apply EvaluateFacts.single_evaluate_scalars; exact Hq|].
  rewrite nth_error_map, Hi. simpl. f_equal.
  destruct f; try reflexivity; discriminate.
Qed.

Lemma single_evaluate_keeps_nan_and_finite_scores_witness :
  exists test_pred,
    ZeroCostPredictorEvaluator.single_evaluate
      (fun arch => if String.eqb arch "arch_n"
                   then Some (ZeroCostPredictorEvaluator.Scalar
                                ZeroCostPredictorEvaluator.NaN)
                   else zc_scalar_table arch)
      ["arch_a"; "arch_n"] [90; 10]%Z
      = Ok ([90; 10]%Z, test_pred) /\
    nth_error test_pred 1 = Some ZeroCostPredictorEvaluator.NaN.
Proof.
  apply (single_evaluate_keeps_nan_and_finite_scores Z _
           ["arch_a"; "arch_n"] [90; 10]%Z
           [ZeroCostPredictorEvaluator.PInf; ZeroCostPredictorEvaluator.NaN]
           1 ZeroCostPredictorEvaluator.NaN);
    reflexivity.
Defined.

(** A witness of X17: three architectures, two scores each. *)
Lemma ensemble_length_witness :
  exists test_pred,
    ZeroCostPredictorEvaluator.single_evaluate zc_ensemble_table three_archs
      [90; 50; 70]%Z = Ok ([90; 50; 70]%Z, test_pred) /\
    List.length test_pred = 2%nat.
Proof.
  apply (ZeroCostFacts.ensemble_length Z zc_ensemble_table three_archs
           [90; 50; 70]%Z (nth 0 ensemble_scores [])
           [nth 1 ensemble_scores []; nth 2 ensemble_scores []] 2).
  - reflexivity.
  - repeat constructor.
Defined.

(** X18. [evaluate] on a labelled file: when the first [size] objects
    carry both keys and the table has a number for each of their
    architectures, the accuracies and the predictions handed to the
    correlation computation have the same length, the smaller of [size] and
    the number of objects, and no prediction is infinite. *)
Theorem evaluate_from_file_aligned
    (A Y : Type) (str : A -> string)
    (zc_api : string -> option ZeroCostPredictorEvaluator.score)
    (data : list (ZeroCostPredictorEvaluator.entry A Y)) (size : Z) :
  Forall ZeroCostPredictorEvaluator.well_formed
         (firstn (Z.to_nat size) data) ->
  (forall x a, In x (firstn (Z.to_nat size) data) ->
               ZeroCostPredictorEvaluator.entry_arch x = Some a ->
               exists f, zc_api (str a)
                         = Some (ZeroCostPredictorEvaluator.Scalar f)) ->
  exists ytest test_pred,
    ZeroCostPredictorEvaluator.evaluate_from_file str zc_api data size
      = Ok (ytest, test_pred) /\
    List.length ytest = Nat.min (Z.to_nat size) (List.length data) /\
    List.length test_pred = Nat.min (Z.to_nat size) (List.length data) /\
    Forall (fun f => ZeroCostPredictorEvaluator.is_infinite f = false)
           test_pred.
Proof.
  intros Hwf Hscores.
  assert (Hb : ZeroCostPredictorEvaluator.budget size 0 = Z.to_nat size)
    by (unfold ZeroCostPredictorEvaluator.budget; f_equal; lia).
  rewrite <- Hb in Hwf.
  destruct (LoadFacts.load_loop_well_formed A Y size data 0%nat Hwf)
    as (xs & ys & Hload & Hxs & Hys).
  rewrite Hb in Hxs, Hys.
  destruct (EvaluateFacts.scalar_scores_exist A
              (fun a => zc_api (str a)) xs) as [raw Hraw].
  { intros a Ha.
    assert (Hin : In (Some a)
                     (map ZeroCostPredictorEvaluator.entry_arch
                          (firstn (Z.to_nat size) data)))
      by (rewrite <- Hxs; apply in_map; exact Ha).
    apply in_map_iff in Hin. destruct Hin as (x & Hx & Hin).
    apply (Hscores x a Hin Hx). }
  exists ys, (map ZeroCostPredictorEvaluator.clamp_float raw).
  unfold ZeroCostPredictorEvaluator.evaluate_from_file.
  unfold ZeroCostPredictorEvaluator.load_dataset_from_file.
  rewrite Hload. cbn [bind fst snd].
  rewrite <- (map_map str zc_api) in Hraw.
  rewrite (EvaluateFacts.single_evaluate_scalars Y zc_api (map str xs) ys
             raw Hraw).
  apply (f_equal (@List.length _)) in Hxs.
  apply (f_equal (@List.length _)) in Hys.
  apply (f_equal (@List.length _)) in Hraw.
  repeat rewrite length_map in Hxs.
  repeat rewrite length_map in Hys.
  repeat rewrite length_map in Hraw.
  rewrite length_firstn in Hxs, Hys.
  split; [reflexivity|]. split; [exact Hys|].
  split; [rewrite length_map, <- Hraw; exact Hxs|].
  apply ZeroCostFacts.clamp_float_finite.
Qed.

Lemma evaluate_from_file_aligned_witness :
  exists ytest test_pred,
    ZeroCostPredictorEvaluator.evaluate_from_file (fun a => a)
      zc_scalar_table labelled_file 2 = Ok (ytest, test_pred) /\
    List.length ytest = 2%nat /\
    List.length test_pred = 2%nat.
Proof.
  destruct (evaluate_from_file_aligned string Z (fun a => a) zc_scalar_table
              labelled_file 2) as (ys & preds & H1 & H2 & H3 & _).
  - simpl. repeat constructor; discriminate.
  - simpl. intros x a [Hx | [Hx | []]] Ha; subst x; simpl in Ha;
      injection Ha as Ha; subst a; eexists; reflexivity.
  - exists ys, preds. repeat split; assumption.
Defined.

(** * Lengths that are not checked, and one that is *)

Section LengthFacts.
Context {T : Type} `{TensorOps T}.

Lemma combine_ignores_surplus (A B : Type) (l : list A) :
  forall front back : list B,
    (List.length l <= List.length front)%nat ->
    combine l (front ++ back) = combine l front.
Proof.
  induction l as [|a l IH]; intros [|b front] back Hlen; simpl in *;
    try reflexivity; try lia.
  rewrite IH; [reflexivity | lia].
Qed.

Lemma filter_shorter (A : Type) (p : A -> bool) (l : list A) :
  (List.length (filter p l) <= List.length l)%nat /\
  (Exists (fun a => p a = false) l ->
   (List.length (filter p l) < List.length l)%nat).
Proof.
  induction l as [|a l [IHle IHlt]]; simpl.
  - split; [lia | intro Hex; inversion Hex].
  - destruct (p a) eqn:Hp; simpl; split; try lia.
    intro Hex. inversion Hex as [? ? Hhere | ? ? Hlater]; subst;
      [congruence|].
    apply IHlt in Hlater. lia.
Qed.

End LengthFacts.

(** X19. The weighted forward of an unfixed [DiffOP] checks no length: it
    never raises, and with fewer probabilities than candidates the
    candidates beyond the last probability are silently left out, the
    result being that of the mutable without them. *)
Theorem diffop_mixture_ignores_surplus_candidates
    (T : Type) (ops : TensorOps T) (normalize : list Q -> list Q)
    (front back : ModuleDict T) (chosen : attr pychosen) (x : T)
    (a : list Q) :
  (List.length (normalize a) <= List.length front)%nat ->
  DiffOP.forward normalize (DiffOP.mk false (front ++ back) chosen) x (Some a)
  = DiffOP.forward normalize (DiffOP.mk false front chosen) x (Some a) /\
  is_ok (DiffOP.forward normalize (DiffOP.mk false (front ++ back) chosen)
           x (Some a)) = true.
Proof.
  intro Hlen.
  unfold DiffOP.forward, DiffOP.forward_arch_param. simpl.
  unfold mixture_outputs, mixture_sites, same_input_sites.
  rewrite map_app, combine_ignores_surplus;
    [split; reflexivity | rewrite length_map; exact Hlen].
Qed.

Lemma diffop_mixture_ignores_surplus_candidates_witness :
  DiffOP.forward softmax_of_weights diffop3 (Q2Qc 1) (Some [1; 3])
  = DiffOP.forward softmax_of_weights
      (DiffOP.mk false (firstn 2 three_candidates) Absent)
      (Q2Qc 1) (Some [1; 3]).
Proof.
  apply (fun Hlen =>
           proj1 (diffop_mixture_ignores_surplus_candidates Qc QcTensor
                    softmax_of_weights (firstn 2 three_candidates)
                    (skipn 2 three_candidates) Absent (Q2Qc 1) [1; 3] Hlen)).
  simpl. lia.
Defined.

(** X20. After a fix that removed at least one edge, [forward_all] and
    [forward_arch_param] of the route raise [AssertionError] on the inputs
    of the unfixed route (one per original edge), the very inputs that
    [forward], through [forward_fixed], still expects. *)
Theorem route_forward_all_after_fix_rejects_original_inputs
    (T : Type) (ops : TensorOps T) (normalize : list Q -> list Q)
    (route : DiffChoiceRoute.t (T := T)) (chosen : list string)
    (inputs : list T) (arch_param : option (list Q)) :
  DiffChoiceRoute.is_fixed route = false ->
  NoDup (DiffChoiceRoute.choices route) ->
  List.length inputs = List.length (DiffChoiceRoute._edges route) ->
  Exists (fun k => str_in k chosen = false) (DiffChoiceRoute.choices route) ->
  let route' := fst (DiffChoiceRoute.fix_chosen route chosen) in
  DiffChoiceRoute.forward_all route' inputs = Raise AssertionError /\
  DiffChoiceRoute.forward_arch_param normalize route' inputs arch_param
    = Raise AssertionError /\
  is_ok (DiffChoiceRoute.forward normalize route' inputs arch_param) = true.
Proof.
  intros Hfix Hd Hlen Hex route'.
  assert (Hfwd : is_ok (DiffChoiceRoute.forward_fixed route' inputs) = true).
  { subst route'. unfold DiffChoiceRoute.fix_chosen.
    unfold DiffChoiceRoute.is_fixed in Hfix. simpl. rewrite Hfix. simpl.
    unfold DiffChoiceRoute.forward_fixed. simpl.
    rewrite DiffChoiceRoute_prune.
    unfold DiffChoiceRoute.choices in *.
    rewrite (forward_fixed_loop (DiffChoiceRoute._edges route) chosen Hd
               (DiffChoiceRoute._edges route) inputs (incl_refl _)).
    reflexivity. }
  assert (Hfixed : DiffChoiceRoute.is_fixed route' = true).
  { subst route'. unfold DiffChoiceRoute.fix_chosen.
    unfold DiffChoiceRoute.is_fixed in *. simpl. rewrite Hfix. reflexivity. }
  assert (Hshort : (List.length (DiffChoiceRoute._edges route')
                    < List.length inputs)%nat).
  { subst route'. unfold DiffChoiceRoute.fix_chosen.
    unfold DiffChoiceRoute.is_fixed in Hfix. simpl. rewrite Hfix. simpl.
    rewrite DiffChoiceRoute_prune, Hlen.
    apply (filter_shorter _ (fun kv : string * (T -> T) =>
                               str_in (fst kv) chosen)).
    unfold DiffChoiceRoute.choices, keys in Hex.
    apply Exists_exists in Hex. destruct Hex as (k & Hk & Hout).
    apply in_map_iff in Hk. destruct Hk as (kv & Hkv & Hin).
    apply Exists_exists. exists kv. split; [exact Hin|].
    rewrite Hkv. exact Hout. }
  assert (Hneq : (List.length inputs
                  =? List.length (DiffChoiceRoute._edges route'))%nat = false)
    by (apply Nat.eqb_neq; lia).
  unfold DiffChoiceRoute.forward_all, DiffChoiceRoute.forward_arch_param.
  unfold DiffChoiceRoute.forward_all_traced.
  unfold DiffChoiceRoute.forward_arch_param_traced.
  rewrite Hneq. simpl.
  split; [reflexivity|]. split; [reflexivity|].
  unfold DiffChoiceRoute.forward. rewrite Hfixed. exact Hfwd.
Qed.

Lemma route_forward_all_after_fix_rejects_original_inputs_witness :
  let route' :=
    fst (DiffChoiceRoute.fix_chosen route3 ["first_edge"; "third_edge"]) in
  DiffChoiceRoute.forward_all route' [Q2Qc 1; Q2Qc 2; Q2Qc 3]
    = Raise AssertionError /\
  is_ok (DiffChoiceRoute.forward softmax_of_weights route'
           [Q2Qc 1; Q2Qc 2; Q2Qc 3] None) = true.
Proof.
  destruct (route_forward_all_after_fix_rejects_original_inputs Qc QcTensor
              softmax_of_weights route3 ["first_edge"; "third_edge"]
              [Q2Qc 1; Q2Qc 2; Q2Qc 3] None) as (H1 & _ & H3).
  - reflexivity.
  - repeat constructor; simpl; intuition discriminate.
  - reflexivity.
  - apply Exists_cons_tl. apply Exists_cons_hd. reflexivity.
  - split; [exact H1 | exact H3].
Defined.
